(** * Sale-order mock API (consumer-order-vista, [src/api/index.ts])

    A shallow embedding of the order operations of [api]:
    [getSaleOrders], [createSaleOrder], [updateSaleOrder] and
    [markOrderAsPaid], over the interfaces of [src/types/index.ts].

    Modelling conventions.
    - A JavaScript [number] that holds an identifier, a quantity or an
      inventory count is an integer of [Z].  A [number] that holds money (the
      prices of a SKU, the price of an item, the total of an order) is an IEEE
      754 double, Rocq's primitive [float], with the machine's own rounding
      addition and multiplication; an integer quantity enters the arithmetic
      as the double of the same value ([number_of_Z]).
    - The three module-level arrays [mockCustomers], [mockProducts] and
      [mockSaleOrders] are the fields of one [State] record; every
      operation is a computation in the state-and-exception monad [M], which
      hands back the state also when it throws.
    - [new Date().toISOString()] reads a clock oracle held in the state:
      each evaluation takes the next reading.  [new Date(s).getTime()] is a
      function [getTime] from timestamp strings to milliseconds and is a
      parameter of the sorting code (valid dates only: no NaN).
    - [await delay(500)] suspends and changes nothing; it is left out.
    - Object spreads build fresh objects, so records are copied by value. *)

From Stdlib Require Import ZArith Lia Ascii Floats.
From stdpp Require Import base option list strings sorting gmap.

Local Open Scope string_scope.
Local Open Scope list_scope.
Local Open Scope Z_scope.

(** Decimal prices are written in decimal and stand for the nearest double. *)
Set Warnings "-inexact-float".

(** ** The data model of [src/types/index.ts] *)

Module CustomerProfile.
Record t := mk {
  id : Z;
  name : string;
  color : list Z;
  email : string;
  pincode : string;
  location_name : string;
  type : string;
  profile_pic : option string;
  gst : string
}.
End CustomerProfile.

Module Customer.
Record t := mk {
  id : Z;
  customer : Z;
  customer_profile : CustomerProfile.t
}.
End Customer.

Module SKU.
Record t := mk {
  id : Z;
  selling_price : float;
  max_retail_price : float;
  amount : Z;
  unit : string;
  quantity_in_inventory : Z;
  product : Z
}.
End SKU.

Module Product.
Record t := mk {
  id : Z;
  display_id : Z;
  owner : Z;
  name : string;
  category : string;
  characteristics : string;
  features : string;
  brand : string;
  sku : list SKU.t;
  updated_on : string;
  adding_date : string
}.
End Product.

Module OrderItem.
Record t := mk {
  sku_id : Z;
  price : float;
  quantity : Z;
  product_name : option string
}.
End OrderItem.

Module SaleOrder.
Record t := mk {
  id : Z;
  customer_id : Z;
  customer_name : string;
  items : list OrderItem.t;
  paid : bool;
  invoice_no : string;
  invoice_date : string;
  created_at : string;
  last_modified : string;
  total_price : float
}.
End SaleOrder.

Module SaleOrderFormData.
Record t := mk {
  customer_id : Z;
  items : list OrderItem.t;
  paid : bool;
  invoice_no : string;
  invoice_date : string
}.
End SaleOrderFormData.

Inductive OrderStatus := active | completed.

(** ** The store, the clock and the monad *)

Record State := mkState {
  mockCustomers : list Customer.t;
  mockProducts : list Product.t;
  mockSaleOrders : list SaleOrder.t;
  (** [clock n] is what the [n]-th coming [new Date().toISOString()] gives *)
  clock : nat → string
}.

(** A thrown [new Error(message)]. *)
Inductive Exception := Error (message : string).

Definition CustomerNotFound : Exception := Error "Customer not found".
Definition OrderNotFound : Exception := Error "Order not found".

Inductive Result (A : Type) :=
  | Ok (a : A)
  | Throw (e : Exception).
Arguments Ok {A} a.
Arguments Throw {A} e.

Definition M (A : Type) : Type := State → Result A * State.

Global Instance M_ret : MRet M := λ A a s, (Ok a, s).
Global Instance M_bind : MBind M := λ A B f m s,
  match m s with
  | (Ok a, s') => f a s'
  | (Throw e, s') => (Throw e, s')
  end.

Definition throw {A} (e : Exception) : M A := λ s, (Throw e, s).
Definition gets {A} (f : State → A) : M A := λ s, (Ok (f s), s).
Definition modify (f : State → State) : M () := λ s, (Ok (), f s).

(** [new Date().toISOString()]: the next reading of the clock. *)
Definition new_Date_toISOString : M string := λ s,
  (Ok (clock s 0%nat),
   mkState (mockCustomers s) (mockProducts s) (mockSaleOrders s)
           (λ n, clock s (S n))).

(** Field assignments on the store. *)
Definition set_mockSaleOrders (os : list SaleOrder.t) (s : State) : State :=
  mkState (mockCustomers s) (mockProducts s) os (clock s).
Definition set_mockProducts (ps : list Product.t) (s : State) : State :=
  mkState (mockCustomers s) ps (mockSaleOrders s) (clock s).

(** [xs.forEach(body)] *)
Fixpoint forEach {A} (xs : list A) (body : A → M ()) : M () :=
  match xs with
  | [] => mret ()
  | x :: xs' => body x ≫= λ _, forEach xs' body
  end.

(** ** Array and number helpers of the JavaScript library *)

(** [xs.find(P)] and [xs.findIndex(P)]; [None] stands for [undefined] and
    for [-1]. *)
Definition Array_find {A} (P : A → Prop) `{∀ x, Decision (P x)}
    (xs : list A) : option A :=
  snd <$> list_find P xs.
Definition Array_findIndex {A} (P : A → Prop) `{∀ x, Decision (P x)}
    (xs : list A) : option nat :=
  fst <$> list_find P xs.

(** [Math.max(x, ...xs)] *)
Definition Math_max (x : Z) (xs : list Z) : Z := foldl Z.max x xs.

(** [v || d] on a possibly undefined string: the empty string is falsy. *)
Definition or_else (v : option string) (d : string) : string :=
  match v with
  | Some s => if decide (s = "") then d else s
  | None => d
  end.

(** [xs.sort(compare)]: the sort is stable, and an element [a] stays before
    [b] unless [compare(a, b) > 0].  For a consistent comparator every stable
    sort returns the same array; insertion from the right is the one taken
    here. *)
Section Sort.
Context {A : Type} (compare : A → A → Z).

Fixpoint sort_insert (a : A) (xs : list A) : list A :=
  match xs with
  | [] => [a]
  | b :: xs' =>
      if decide (compare a b ≤ 0) then a :: b :: xs'
      else b :: sort_insert a xs'
  end.

Definition Array_sort (xs : list A) : list A := foldr sort_insert [] xs.
End Sort.

(** ** The operations of [api] *)

(** [p.sku.some(sku => sku.id === sku_id)] *)
Definition has_sku (sku_id : Z) (p : Product.t) : Prop :=
  Exists (λ sku, SKU.id sku = sku_id) (Product.sku p).
Global Instance has_sku_dec sku_id p : Decision (has_sku sku_id p).
Proof. unfold has_sku. apply _. Defined.

(** [c.customer_profile.id === customer_id] *)
Definition is_customer (customer_id : Z) (c : Customer.t) : Prop :=
  CustomerProfile.id (Customer.customer_profile c) = customer_id.
Global Instance is_customer_dec customer_id c :
  Decision (is_customer customer_id c).
Proof. unfold is_customer. apply _. Defined.

(** [order.id === id] *)
Definition is_order (id : Z) (o : SaleOrder.t) : Prop := SaleOrder.id o = id.
Global Instance is_order_dec id o : Decision (is_order id o).
Proof. unfold is_order. apply _. Defined.

(** The callback of [orderData.items.map] in create and update:
    [{...item, product_name: product?.name || "Unknown Product"}]. *)
Definition with_product_name (products : list Product.t)
    (item : OrderItem.t) : OrderItem.t :=
  let product := Array_find (has_sku (OrderItem.sku_id item)) products in
  OrderItem.mk (OrderItem.sku_id item) (OrderItem.price item)
    (OrderItem.quantity item)
    (Some (or_else (Product.name <$> product) "Unknown Product")).

(** The double that an integer is as a JavaScript [number]: the integer
    itself up to 2^53 in size, the nearest double beyond. *)
Definition number_of_Z (z : Z) : float :=
  SF2Prim (binary_normalize prec emax z 0 false).

(** [items.reduce((sum, item) => sum + (item.price * item.quantity), 0)],
    in doubles and from left to right. *)
Definition items_total (items : list OrderItem.t) : float :=
  foldl (λ sum item,
           PrimFloat.add sum
             (PrimFloat.mul (OrderItem.price item)
                (number_of_Z (OrderItem.quantity item))))
        0%float items.

(** [status === "completed" ? order.paid : !order.paid] *)
Definition has_status (status : OrderStatus) (order : SaleOrder.t) : bool :=
  match status with
  | completed => SaleOrder.paid order
  | active => negb (SaleOrder.paid order)
  end.

Section GetSaleOrders.
(** [new Date(s).getTime()] *)
Variable getTime : string → Z.

Definition by_last_modified_desc (a b : SaleOrder.t) : Z :=
  getTime (SaleOrder.last_modified b) - getTime (SaleOrder.last_modified a).

(** The array [getSaleOrders] builds from the stored orders. *)
Definition listOrders (status : OrderStatus)
    (orders : list SaleOrder.t) : list SaleOrder.t :=
  Array_sort by_last_modified_desc
    (filter (λ order, has_status status order = true) orders).

Definition getSaleOrders (status : OrderStatus) : M (list SaleOrder.t) :=
  orders ← gets mockSaleOrders;
  mret (listOrders status orders).
End GetSaleOrders.

(** The body of the [forEach] that updates the inventory. *)
Definition decrement (quantity : Z) (sku : SKU.t) : SKU.t :=
  SKU.mk (SKU.id sku) (SKU.selling_price sku) (SKU.max_retail_price sku)
    (SKU.amount sku) (SKU.unit sku)
    (SKU.quantity_in_inventory sku - quantity) (SKU.product sku).

Definition set_sku (skus : list SKU.t) (p : Product.t) : Product.t :=
  Product.mk (Product.id p) (Product.display_id p) (Product.owner p)
    (Product.name p) (Product.category p) (Product.characteristics p)
    (Product.features p) (Product.brand p) skus
    (Product.updated_on p) (Product.adding_date p).

(** [mockProducts[productIndex].sku[skuIndex].quantity_in_inventory -= q] *)
Definition decrement_at (productIndex skuIndex : nat) (quantity : Z)
    (products : list Product.t) : list Product.t :=
  alter (λ p, set_sku (alter (decrement quantity) skuIndex (Product.sku p)) p)
        productIndex products.

Definition update_inventory_of (item : OrderItem.t)
    (products : list Product.t) : list Product.t :=
  match Array_findIndex (has_sku (OrderItem.sku_id item)) products with
  | None => products
  | Some productIndex =>
      match products !! productIndex with
      | None => products
      | Some p =>
          match Array_findIndex (λ sku, SKU.id sku = OrderItem.sku_id item)
                                (Product.sku p) with
          | None => products
          | Some skuIndex =>
              decrement_at productIndex skuIndex (OrderItem.quantity item)
                           products
          end
      end
  end.

Definition update_inventory (item : OrderItem.t) : M () :=
  modify (λ s, set_mockProducts (update_inventory_of item (mockProducts s)) s).

Definition createSaleOrder (orderData : SaleOrderFormData.t)
    : M SaleOrder.t :=
  customers ← gets mockCustomers;
  match Array_find (is_customer (SaleOrderFormData.customer_id orderData))
                   customers with
  | None => throw CustomerNotFound
  | Some customer =>
      orders ← gets mockSaleOrders;
      products ← gets mockProducts;
      created_at ← new_Date_toISOString;
      last_modified ← new_Date_toISOString;
      let newOrder :=
        SaleOrder.mk
          (Math_max 0 (SaleOrder.id <$> orders) + 1)
          (SaleOrderFormData.customer_id orderData)
          (CustomerProfile.name (Customer.customer_profile customer))
          (with_product_name products <$> SaleOrderFormData.items orderData)
          (SaleOrderFormData.paid orderData)
          (SaleOrderFormData.invoice_no orderData)
          (SaleOrderFormData.invoice_date orderData)
          created_at
          last_modified
          (items_total (SaleOrderFormData.items orderData)) in
      modify (λ s, set_mockSaleOrders (mockSaleOrders s ++ [newOrder]) s) ;;
      forEach (SaleOrderFormData.items orderData) update_inventory ;;
      mret newOrder
  end.

Definition updateSaleOrder (id : Z) (orderData : SaleOrderFormData.t)
    : M SaleOrder.t :=
  orders ← gets mockSaleOrders;
  match list_find (is_order id) orders with
  | None => throw OrderNotFound
  | Some (orderIndex, order) =>
      customers ← gets mockCustomers;
      match Array_find (is_customer (SaleOrderFormData.customer_id orderData))
                       customers with
      | None => throw CustomerNotFound
      | Some customer =>
          products ← gets mockProducts;
          last_modified ← new_Date_toISOString;
          let updatedOrder :=
            SaleOrder.mk
              (SaleOrder.id order)
              (SaleOrderFormData.customer_id orderData)
              (CustomerProfile.name (Customer.customer_profile customer))
              (with_product_name products
                 <$> SaleOrderFormData.items orderData)
              (SaleOrderFormData.paid orderData)
              (SaleOrderFormData.invoice_no orderData)
              (SaleOrderFormData.invoice_date orderData)
              (SaleOrder.created_at order)
              last_modified
              (items_total (SaleOrderFormData.items orderData)) in
          modify (λ s, set_mockSaleOrders
                         (<[orderIndex := updatedOrder]> (mockSaleOrders s)) s) ;;
          mret updatedOrder
      end
  end.

Definition markOrderAsPaid (id : Z) : M SaleOrder.t :=
  orders ← gets mockSaleOrders;
  match list_find (is_order id) orders with
  | None => throw OrderNotFound
  | Some (orderIndex, order) =>
      last_modified ← new_Date_toISOString;
      let paidOrder :=
        SaleOrder.mk
          (SaleOrder.id order)
          (SaleOrder.customer_id order)
          (SaleOrder.customer_name order)
          (SaleOrder.items order)
          true
          (SaleOrder.invoice_no order)
          (SaleOrder.invoice_date order)
          (SaleOrder.created_at order)
          last_modified
          (SaleOrder.total_price order) in
      modify (λ s, set_mockSaleOrders
                     (<[orderIndex := paidOrder]> (mockSaleOrders s)) s) ;;
      mret paidOrder
  end.

(** ** Notions the statements are written with *)

(** The sum of a list of integers. *)
Definition sumZ (xs : list Z) : Z := foldr Z.add 0 xs.

(** One line of an order: [price * quantity]. *)
Definition line_total (item : OrderItem.t) : float :=
  PrimFloat.mul (OrderItem.price item) (number_of_Z (OrderItem.quantity item)).

(** The sum of doubles taken from left to right, starting from 0: every
    addition rounds, so the order of the terms is part of the sum. *)
Definition sum_in_order (xs : list float) : float :=
  foldl PrimFloat.add 0%float xs.

(** The catalog after the inventory [forEach] over [items]. *)
Definition inventory_after (items : list OrderItem.t)
    (products : list Product.t) : list Product.t :=
  foldl (λ ps item, update_inventory_of item ps) products items.

(** The object [newOrder] that [createSaleOrder] builds in state [s] once
    the customer is found; the two timestamps are the next two readings of
    the clock. *)
Definition created_order (s : State) (orderData : SaleOrderFormData.t)
    (customer : Customer.t) : SaleOrder.t :=
  SaleOrder.mk
    (Math_max 0 (SaleOrder.id <$> mockSaleOrders s) + 1)
    (SaleOrderFormData.customer_id orderData)
    (CustomerProfile.name (Customer.customer_profile customer))
    (with_product_name (mockProducts s) <$> SaleOrderFormData.items orderData)
    (SaleOrderFormData.paid orderData)
    (SaleOrderFormData.invoice_no orderData)
    (SaleOrderFormData.invoice_date orderData)
    (clock s 0%nat)
    (clock s 1%nat)
    (items_total (SaleOrderFormData.items orderData)).

(** The state [createSaleOrder] leaves: the order pushed, the inventory
    updated, two readings of the clock used up. *)
Definition after_create (s : State) (orderData : SaleOrderFormData.t)
    (customer : Customer.t) : State :=
  mkState (mockCustomers s)
    (inventory_after (SaleOrderFormData.items orderData) (mockProducts s))
    (mockSaleOrders s ++ [created_order s orderData customer])
    (λ n, clock s (S (S n))).

(** The object [updatedOrder] that [updateSaleOrder] puts in the place of
    [order]. *)
Definition updated_order (s : State) (orderData : SaleOrderFormData.t)
    (order : SaleOrder.t) (customer : Customer.t) : SaleOrder.t :=
  SaleOrder.mk
    (SaleOrder.id order)
    (SaleOrderFormData.customer_id orderData)
    (CustomerProfile.name (Customer.customer_profile customer))
    (with_product_name (mockProducts s) <$> SaleOrderFormData.items orderData)
    (SaleOrderFormData.paid orderData)
    (SaleOrderFormData.invoice_no orderData)
    (SaleOrderFormData.invoice_date orderData)
    (SaleOrder.created_at order)
    (clock s 0%nat)
    (items_total (SaleOrderFormData.items orderData)).

(** The object [markOrderAsPaid] puts in the place of [order]. *)
Definition paid_order (s : State) (order : SaleOrder.t) : SaleOrder.t :=
  SaleOrder.mk (SaleOrder.id order) (SaleOrder.customer_id order)
    (SaleOrder.customer_name order) (SaleOrder.items order) true
    (SaleOrder.invoice_no order) (SaleOrder.invoice_date order)
    (SaleOrder.created_at order) (clock s 0%nat)
    (SaleOrder.total_price order).

(** The store after [mockSaleOrders[orderIndex] = order] and one reading of
    the clock. *)
Definition after_replace (s : State) (orderIndex : nat)
    (order : SaleOrder.t) : State :=
  mkState (mockCustomers s) (mockProducts s)
    (<[orderIndex := order]> (mockSaleOrders s))
    (λ n, clock s (S n)).

(** [mockCustomers.find(c => c.customer_profile.id === customer_id)] *)
Definition find_customer (s : State) (customer_id : Z) : option Customer.t :=
  Array_find (is_customer customer_id) (mockCustomers s).

(** [products[i].sku[j]] *)
Definition sku_at (products : list Product.t) (i j : nat) : option SKU.t :=
  products !! i ≫= λ p, Product.sku p !! j.

(** Where the two [findIndex] calls of the inventory update arrive for a
    [sku_id]: the first product that has such a SKU, and the first such SKU
    in it. *)
Definition locate (products : list Product.t) (sku_id : Z)
    : option (nat * nat) :=
  match list_find (has_sku sku_id) products with
  | None => None
  | Some (i, p) =>
      match list_find (λ sku, SKU.id sku = sku_id) (Product.sku p) with
      | None => None
      | Some (j, _) => Some (i, j)
      end
  end.

(** The quantity ordered of a SKU: the sum over the items that name it. *)
Definition ordered (sku_id : Z) (items : list OrderItem.t) : Z :=
  sumZ (OrderItem.quantity
          <$> filter (λ item, OrderItem.sku_id item = sku_id) items).

(** A SKU, and a catalog, with the inventory quantity blanked out: what is
    left is everything the inventory update must not touch. *)
Definition blank (sku : SKU.t) : SKU.t :=
  SKU.mk (SKU.id sku) (SKU.selling_price sku) (SKU.max_retail_price sku)
    (SKU.amount sku) (SKU.unit sku) 0 (SKU.product sku).

Definition without_inventory (products : list Product.t) : list Product.t :=
  (λ p, set_sku (blank <$> Product.sku p) p) <$> products.

(** [createSaleOrder] called on each form in turn. *)
Fixpoint createSaleOrders (forms : list SaleOrderFormData.t)
    : M (list SaleOrder.t) :=
  match forms with
  | [] => mret []
  | form :: forms' =>
      o ← createSaleOrder form;
      os ← createSaleOrders forms';
      mret (o :: os)
  end.

(** What [product?.name || "Unknown Product"] gives for a [sku_id]: the
    sentinel when no product has such a SKU, and otherwise the name of the
    first product that has one, unless that name is the empty string, which
    gives the sentinel as well. *)
Definition resolves_to (products : list Product.t) (sku_id : Z)
    (name : string) : Prop :=
  ((∀ p, p ∈ products → ¬ has_sku sku_id p) → name = "Unknown Product")
  ∧ (∀ i p, products !! i = Some p → has_sku sku_id p →
       (∀ i' p', products !! i' = Some p' → has_sku sku_id p' → (i ≤ i')%nat) →
       (Product.name p ≠ "" → name = Product.name p)
       ∧ (Product.name p = "" → name = "Unknown Product")).

(** An assembled item: the submitted one with its product name filled in. *)
Definition assembled (products : list Product.t)
    (item item' : OrderItem.t) : Prop :=
  OrderItem.sku_id item' = OrderItem.sku_id item
  ∧ OrderItem.price item' = OrderItem.price item
  ∧ OrderItem.quantity item' = OrderItem.quantity item
  ∧ ∃ name, OrderItem.product_name item' = Some name
            ∧ resolves_to products (OrderItem.sku_id item) name.

(** ** Sample stores *)

(** A small store to run the operations on.

    The catalog of the specification's scenario: product "Widget" (id 1)
    with SKU 10 at price 100 and 50 in stock, and one customer whose
    profile id is 1 (the [Customer] record itself has id 7). *)
Module Scenario.

Definition profile : CustomerProfile.t :=
  CustomerProfile.mk 1 "Asha Traders" [] "asha@example.com" "600001"
    "Chennai" "C" None "33AAAAA0000A1Z5".

Definition customer : Customer.t := Customer.mk 7 70 profile.

Definition widget_sku : SKU.t := SKU.mk 10 100 120 1 "kg" 50 1.

Definition widget : Product.t :=
  Product.mk 1 1 1 "Widget" "Tools" "" "" "Acme" [widget_sku]
    "2024-01-01" "2024-01-01".

(** A clock that advances by one millisecond at every reading. *)
Definition ticking (n : nat) : string :=
  match n with
  | O => "2024-01-01T10:00:00.000Z"
  | 1%nat => "2024-01-01T10:00:00.001Z"
  | 2%nat => "2024-01-01T10:00:00.002Z"
  | _ => "2024-01-01T10:00:00.003Z"
  end.

(** A clock that stands still. *)
Definition frozen (n : nat) : string := "2024-01-01T10:00:00.000Z".

Definition s0 : State := mkState [customer] [widget] [] ticking.

Definition form : SaleOrderFormData.t :=
  SaleOrderFormData.mk 1 [OrderItem.mk 10 100 3 None] false "INV-1"
    "2024-01-01".

Definition order1 : SaleOrder.t :=
  SaleOrder.mk 1 1 "Asha Traders" [OrderItem.mk 10 100 3 (Some "Widget")]
    false "INV-1" "2024-01-01"
    "2024-01-01T10:00:00.000Z" "2024-01-01T10:00:00.001Z" 300.

(** The store after [createSaleOrder form], with the clock put back. *)
Definition s1 : State :=
  mkState [customer]
    [Product.mk 1 1 1 "Widget" "Tools" "" "" "Acme"
       [SKU.mk 10 100 120 1 "kg" 47 1] "2024-01-01" "2024-01-01"]
    [order1] ticking.

Example create_order1 :
  (createSaleOrder form s0).1 = Ok order1
  ∧ mockSaleOrders (createSaleOrder form s0).2 = mockSaleOrders s1
  ∧ mockProducts (createSaleOrder form s0).2 = mockProducts s1.
Proof. by vm_compute. Qed.

Example pay_order1 :
  (markOrderAsPaid 1 s1).1
  = Ok (SaleOrder.mk 1 1 "Asha Traders"
          [OrderItem.mk 10 100 3 (Some "Widget")] true "INV-1" "2024-01-01"
          "2024-01-01T10:00:00.000Z" "2024-01-01T10:00:00.000Z" 300).
Proof. by vm_compute. Qed.

End Scenario.

(** A form with decimal prices: three lines of one piece each. *)
Module Decimal.

Definition items : list OrderItem.t :=
  [OrderItem.mk 10 0.1 1 None; OrderItem.mk 10 0.2 1 None;
   OrderItem.mk 10 0.3 1 None].

Definition form : SaleOrderFormData.t :=
  SaleOrderFormData.mk 1 items false "INV-4" "2024-01-04".

(** The total depends on the order of the lines: the additions round. *)
Example total_in_order : items_total items = 0.6000000000000001%float.
Proof. reflexivity. Qed.

Example total_in_reverse : items_total (reverse items) = 0.6%float.
Proof. reflexivity. Qed.

End Decimal.

(** A store of four orders, two of them modified at the same time. *)
Module Listing.

(** [new Date(s).getTime()] on the timestamps used here, in milliseconds. *)
Definition millis (t : string) : Z :=
  if decide (t = "2024-01-01T10:00:00.000Z") then 1704103200000
  else if decide (t = "2024-01-01T10:00:00.001Z") then 1704103200001
  else if decide (t = "2024-01-01T10:00:00.002Z") then 1704103200002
  else 0.

Definition order (id : Z) (paid : bool) (last_modified : string)
    : SaleOrder.t :=
  SaleOrder.mk id 1 "Asha Traders" [] paid "INV" "2024-01-01"
    "2024-01-01T10:00:00.000Z" last_modified 0.

Definition a := order 1 false "2024-01-01T10:00:00.001Z".
Definition b := order 2 true "2024-01-01T10:00:00.000Z".
Definition c := order 3 false "2024-01-01T10:00:00.002Z".
Definition d := order 4 false "2024-01-01T10:00:00.001Z".

Definition s : State :=
  mkState [Scenario.customer] [Scenario.widget] [a; b; c; d] Scenario.ticking.

Example active_orders : listOrders millis active [a; b; c; d] = [c; a; d].
Proof. by vm_compute. Qed.

Example completed_orders : listOrders millis completed [a; b; c; d] = [b].
Proof. by vm_compute. Qed.

End Listing.

Module BlankName.

(** A catalog with a second product whose name is the empty string. *)
Definition nameless : Product.t :=
  Product.mk 2 2 1 "" "Tools" "" "" "Acme" [SKU.mk 20 5 6 1 "pc" 9 2]
    "2024-01-01" "2024-01-01".

Definition s : State :=
  mkState [Scenario.customer] [Scenario.widget; nameless] [] Scenario.ticking.

Definition form : SaleOrderFormData.t :=
  SaleOrderFormData.mk 1 [OrderItem.mk 20 5 1 None] false "INV-2" "2024-01-02".

End BlankName.

Module Failing.

(** A form for a customer id that no profile carries (7 is the id of the
    [Customer] record of the scenario, not of its profile). *)
Definition form : SaleOrderFormData.t :=
  SaleOrderFormData.mk 7 [OrderItem.mk 10 100 3 None] false "INV-3"
    "2024-01-03".

End Failing.

Module StillClock.

(** The scenario's store with a clock that does not move. *)
Definition s : State :=
  mkState [Scenario.customer] [Scenario.widget] [] Scenario.frozen.

End StillClock.

(** ** Facts about the library helpers *)

Lemma items_total_from (acc : float) (items : list OrderItem.t) :
  foldl (λ sum item,
           PrimFloat.add sum
             (PrimFloat.mul (OrderItem.price item)
                (number_of_Z (OrderItem.quantity item))))
        acc items
  = foldl PrimFloat.add acc (line_total <$> items).
Proof.
  revert acc. induction items as [|item items IH]; intros acc; [done|].
  rewrite fmap_cons. cbn [foldl]. by rewrite IH.
Qed.

Lemma items_total_sum (items : list OrderItem.t) :
  items_total items = sum_in_order (line_total <$> items).
Proof. apply items_total_from. Qed.

Lemma Math_max_from (x : Z) (xs : list Z) :
  x ≤ Math_max x xs ∧ Forall (λ y, y ≤ Math_max x xs) xs
  ∧ (Math_max x xs = x ∨ Math_max x xs ∈ xs).
Proof.
  unfold Math_max. revert x.
  induction xs as [|y xs IH]; intros x; simpl.
  - split; [lia|]. split; [constructor | by left].
  - destruct (IH (Z.max x y)) as (Hle & Hall & Hin).
    pose proof (Z.le_max_l x y) as Hl. pose proof (Z.le_max_r x y) as Hr.
    split; [by etrans|]. split.
    + constructor; [by etrans | done].
    + destruct Hin as [Heq | Hin].
      * destruct (Z.max_spec x y) as [[_ Hm] | [_ Hm]].
        -- right. rewrite Heq, Hm. by left.
        -- left. by rewrite Heq, Hm.
      * right. by right.
Qed.

Lemma Math_max_app (x : Z) (xs ys : list Z) :
  Math_max x (xs ++ ys) = Math_max (Math_max x xs) ys.
Proof. unfold Math_max. apply foldl_app. Qed.

Section SortFacts.
Context {A : Type} (key : A → Z).

(** Comparators of the shape [(a, b) => key(b) - key(a)]. *)
Let compare (a b : A) : Z := key b - key a.
Let desc (a b : A) : Prop := key b ≤ key a.

Lemma sort_insert_perm (a : A) (xs : list A) :
  sort_insert compare a xs ≡ₚ a :: xs.
Proof.
  induction xs as [|b xs IH]; simpl; [done|].
  case_decide; [done|]. rewrite IH. apply Permutation_swap.
Qed.

Lemma Array_sort_perm (xs : list A) : Array_sort compare xs ≡ₚ xs.
Proof.
  induction xs as [|a xs IH]; simpl; [done|].
  rewrite sort_insert_perm. by rewrite IH.
Qed.

Lemma sort_insert_sorted (a : A) (xs : list A) :
  Sorted desc xs → Sorted desc (sort_insert compare a xs).
Proof.
  induction 1 as [|b xs Hs IH Hhd]; simpl.
  - repeat constructor.
  - unfold compare at 1. case_decide.
    + constructor; [by constructor|]. constructor. unfold desc. lia.
    + constructor; [done|].
      destruct Hhd as [|c xs Hbc]; simpl.
      * constructor. unfold desc. lia.
      * unfold compare. case_decide; constructor; unfold desc in *; lia.
Qed.

Lemma Array_sort_sorted (xs : list A) : Sorted desc (Array_sort compare xs).
Proof.
  induction xs as [|a xs IH]; simpl; [constructor|].
  by apply sort_insert_sorted.
Qed.

(** Stability: the elements of any one key keep their relative order. *)
Lemma sort_insert_stable (t : Z) (a : A) (xs : list A) :
  filter (λ x, key x = t) (sort_insert compare a xs)
  = filter (λ x, key x = t) (a :: xs).
Proof.
  induction xs as [|b xs IH]; simpl; [done|].
  unfold compare at 1. case_decide; [done|].
  rewrite filter_cons, IH, !filter_cons.
  repeat case_decide; try done; lia.
Qed.

Lemma Array_sort_stable (t : Z) (xs : list A) :
  filter (λ x, key x = t) (Array_sort compare xs)
  = filter (λ x, key x = t) xs.
Proof.
  induction xs as [|a xs IH]; simpl; [done|].
  rewrite sort_insert_stable, !filter_cons, IH. done.
Qed.
(** A sorted list is determined by its elements key by key: there is one
    stable descending arrangement of an array, whatever algorithm finds it. *)
Lemma stable_descending_unique (r1 r2 : list A) :
  StronglySorted desc r1 → StronglySorted desc r2 →
  (∀ t, filter (λ x, key x = t) r1 = filter (λ x, key x = t) r2) →
  r1 = r2.
Proof.
  intros Hs1. revert r2.
  induction Hs1 as [|x r1 Hs1 IH Hx]; intros r2 Hs2 Hf.
  - destruct r2 as [|y r2]; [done|].
    specialize (Hf (key y)). by rewrite filter_cons_True in Hf.
  - destruct Hs2 as [|y r2 Hs2 Hy].
    { specialize (Hf (key x)). by rewrite filter_cons_True in Hf. }
    rewrite Forall_forall in Hx, Hy. unfold desc in Hx, Hy.
    assert (Hk : key x = key y).
    { destruct (decide (key x = key y)) as [|Hne]; [done|].
      assert (Hxy : x ∈ r2).
      { pose proof (Hf (key x)) as Hfx.
        rewrite filter_cons_True, (filter_cons_False _ y) in Hfx by done.
        apply (list_elem_of_filter (λ z, key z = key x)).
        rewrite <- Hfx. left. }
      assert (Hyx : y ∈ r1).
      { pose proof (Hf (key y)) as Hfy.
        rewrite (filter_cons_True _ y), (filter_cons_False _ x) in Hfy by done.
        apply (list_elem_of_filter (λ z, key z = key y)).
        rewrite Hfy. left. }
      pose proof (Hy x Hxy). pose proof (Hx y Hyx). lia. }
    pose proof (Hf (key x)) as Hhead.
    rewrite filter_cons_True, (filter_cons_True _ y) in Hhead by done.
    injection Hhead as <- Htail. f_equal.
    apply IH; [done|]. intros t. specialize (Hf t).
    rewrite !filter_cons in Hf.
    destruct (decide (key x = t)); [by injection Hf | done].
Qed.

Lemma desc_transitive : Transitive desc.
Proof. intros a b c. unfold desc. lia. Qed.

Lemma Array_sort_unique (xs result : list A) :
  Sorted desc result →
  (∀ t, filter (λ x, key x = t) result = filter (λ x, key x = t) xs) →
  result = Array_sort compare xs.
Proof.
  intros Hsorted Hstable. apply stable_descending_unique.
  - by apply (@Sorted_StronglySorted _ desc desc_transitive).
  - apply (@Sorted_StronglySorted _ desc desc_transitive), Array_sort_sorted.
  - intros t. by rewrite Hstable, Array_sort_stable.
Qed.
End SortFacts.

(** ** What each operation computes *)

Lemma forEach_update_inventory (items : list OrderItem.t) (s : State) :
  forEach items update_inventory s
  = (Ok (), set_mockProducts (inventory_after items (mockProducts s)) s).
Proof.
  revert s. induction items as [|item items IH]; intros s.
  - by destruct s.
  - cbn [forEach]. unfold mbind, M_bind, update_inventory at 1, modify.
    rewrite IH. by destruct s.
Qed.

Lemma createSaleOrder_run (orderData : SaleOrderFormData.t) (s : State) :
  createSaleOrder orderData s
  = match find_customer s (SaleOrderFormData.customer_id orderData) with
    | None => (Throw CustomerNotFound, s)
    | Some customer =>
        (Ok (created_order s orderData customer),
         after_create s orderData customer)
    end.
Proof.
  unfold createSaleOrder, find_customer, mbind, M_bind, gets. cbn beta iota.
  destruct (Array_find _ (mockCustomers s)) as [customer|]; [|done].
  unfold new_Date_toISOString, modify. cbn.
  rewrite forEach_update_inventory. done.
Qed.

Lemma updateSaleOrder_run (id : Z) (orderData : SaleOrderFormData.t)
    (s : State) :
  updateSaleOrder id orderData s
  = match list_find (is_order id) (mockSaleOrders s) with
    | None => (Throw OrderNotFound, s)
    | Some (orderIndex, order) =>
        match find_customer s (SaleOrderFormData.customer_id orderData) with
        | None => (Throw CustomerNotFound, s)
        | Some customer =>
            (Ok (updated_order s orderData order customer),
             after_replace s orderIndex
               (updated_order s orderData order customer))
        end
    end.
Proof.
  unfold updateSaleOrder, find_customer, mbind, M_bind, gets. cbn beta iota.
  destruct (list_find _ (mockSaleOrders s)) as [[orderIndex order]|]; [|done].
  cbn beta iota.
  destruct (Array_find _ (mockCustomers s)) as [customer|]; done.
Qed.

Lemma markOrderAsPaid_run (id : Z) (s : State) :
  markOrderAsPaid id s
  = match list_find (is_order id) (mockSaleOrders s) with
    | None => (Throw OrderNotFound, s)
    | Some (orderIndex, order) =>
        (Ok (paid_order s order), after_replace s orderIndex (paid_order s order))
    end.
Proof.
  unfold markOrderAsPaid, mbind, M_bind, gets. cbn beta iota.
  by destruct (list_find _ (mockSaleOrders s)) as [[orderIndex order]|].
Qed.

Lemma getSaleOrders_run (getTime : string → Z) (status : OrderStatus)
    (s : State) :
  getSaleOrders getTime status s
  = (Ok (listOrders getTime status (mockSaleOrders s)), s).
Proof. done. Qed.

(** ** Successful and failed runs, read backwards *)

Lemma createSaleOrder_Ok orderData s o s' :
  createSaleOrder orderData s = (Ok o, s') →
  ∃ customer,
    find_customer s (SaleOrderFormData.customer_id orderData) = Some customer
    ∧ o = created_order s orderData customer
    ∧ s' = after_create s orderData customer.
Proof.
  rewrite createSaleOrder_run.
  destruct (find_customer _ _) as [customer|]; [|done].
  intros [= <- <-]. by exists customer.
Qed.

Lemma updateSaleOrder_Ok id orderData s o s' :
  updateSaleOrder id orderData s = (Ok o, s') →
  ∃ orderIndex order customer,
    list_find (is_order id) (mockSaleOrders s) = Some (orderIndex, order)
    ∧ find_customer s (SaleOrderFormData.customer_id orderData) = Some customer
    ∧ o = updated_order s orderData order customer
    ∧ s' = after_replace s orderIndex o.
Proof.
  rewrite updateSaleOrder_run.
  destruct (list_find _ _) as [[orderIndex order]|]; [|done].
  destruct (find_customer _ _) as [customer|]; [|done].
  intros [= <- <-]. by exists orderIndex, order, customer.
Qed.

Lemma markOrderAsPaid_Ok id s o s' :
  markOrderAsPaid id s = (Ok o, s') →
  ∃ orderIndex order,
    list_find (is_order id) (mockSaleOrders s) = Some (orderIndex, order)
    ∧ o = paid_order s order
    ∧ s' = after_replace s orderIndex o.
Proof.
  rewrite markOrderAsPaid_run.
  destruct (list_find _ _) as [[orderIndex order]|]; [|done].
  intros [= <- <-]. by exists orderIndex, order.
Qed.

Lemma find_customer_None s customer_id :
  find_customer s customer_id = None
  ↔ ∀ c, c ∈ mockCustomers s →
         CustomerProfile.id (Customer.customer_profile c) ≠ customer_id.
Proof.
  unfold find_customer, Array_find. rewrite fmap_None, list_find_None.
  rewrite Forall_forall. done.
Qed.

Lemma find_order_None (orders : list SaleOrder.t) id :
  list_find (is_order id) orders = None
  ↔ ∀ o, o ∈ orders → SaleOrder.id o ≠ id.
Proof. rewrite list_find_None, Forall_forall. done. Qed.

(** Writing at index [i] an order that agrees with the old one on a field
    leaves that field's column of the store as it was. *)
Lemma replace_keeps_field {B} (field : SaleOrder.t → B)
    (orders : list SaleOrder.t) (i : nat) (old new : SaleOrder.t) :
  orders !! i = Some old →
  field new = field old →
  field <$> <[i := new]> orders = field <$> orders.
Proof.
  intros Hi Hsame. rewrite list_fmap_insert, Hsame.
  apply list_insert_id. by rewrite list_lookup_fmap, Hi.
Qed.

Lemma fresh_id_distinct (ids : list Z) :
  NoDup ids → NoDup (ids ++ [Math_max 0 ids + 1]).
Proof.
  intros Hnodup. apply NoDup_app. split; [done|].
  split; [|apply NoDup_singleton].
  intros x Hx ->%list_elem_of_singleton.
  destruct (Math_max_from 0 ids) as (_ & Hall & _).
  rewrite Forall_forall in Hall. pose proof (Hall _ Hx) as Hle.
  cbn beta in Hle. lia.
Qed.

(** Distinct identifiers are an invariant of the store: every operation,
    failing or not, keeps them distinct. *)
Lemma distinct_ids_preserved (s : State) (id : Z)
    (orderData : SaleOrderFormData.t) :
  NoDup (SaleOrder.id <$> mockSaleOrders s) →
  NoDup (SaleOrder.id <$> mockSaleOrders (createSaleOrder orderData s).2)
  ∧ NoDup (SaleOrder.id <$> mockSaleOrders (updateSaleOrder id orderData s).2)
  ∧ NoDup (SaleOrder.id <$> mockSaleOrders (markOrderAsPaid id s).2).
Proof.
  intros Hnodup.
  rewrite createSaleOrder_run, updateSaleOrder_run, markOrderAsPaid_run.
  split; [|split].
  - destruct (find_customer _ _) as [customer|]; [|done].
    cbn. rewrite fmap_app. by apply fresh_id_distinct.
  - destruct (list_find _ _) as [[i old]|] eqn:Hfind; [|done].
    apply list_find_Some in Hfind as (Hi & _).
    destruct (find_customer _ _) as [customer|]; [|done].
    cbn. by rewrite (replace_keeps_field SaleOrder.id _ i old).
  - destruct (list_find _ _) as [[i old]|] eqn:Hfind; [|done].
    apply list_find_Some in Hfind as (Hi & _).
    cbn. by rewrite (replace_keeps_field SaleOrder.id _ i old).
Qed.

(** ** Totals and listing *)

(** C1. [createSaleOrder] (when the customer is found) and
    [updateSaleOrder] (when the order and the customer are found) return an
    order whose [total_price] is the sum over the submitted items of
    [price * quantity]: the products and the sum are those of the doubles,
    taken in the order of the items and starting from 0, so the total is 0
    for no items.  That order is the one stored: appended by create, put at
    the order's index by update, with every other stored order as it was.
    [markOrderAsPaid] leaves every stored total as it was. *)
Theorem total_price_is_sum_of_lines (s : State) (id : Z)
    (orderData : SaleOrderFormData.t) :
  let total :=
    sum_in_order (line_total <$> SaleOrderFormData.items orderData) in
  (∀ o s', createSaleOrder orderData s = (Ok o, s') →
     SaleOrder.total_price o = total
     ∧ (SaleOrderFormData.items orderData = [] →
        SaleOrder.total_price o = 0%float)
     ∧ mockSaleOrders s' = mockSaleOrders s ++ [o])
  ∧ (∀ o s', updateSaleOrder id orderData s = (Ok o, s') →
     SaleOrder.total_price o = total
     ∧ (SaleOrderFormData.items orderData = [] →
        SaleOrder.total_price o = 0%float)
     ∧ ∃ i, mockSaleOrders s' !! i = Some o
            ∧ mockSaleOrders s' = <[i := o]> (mockSaleOrders s))
  ∧ (∀ o s', markOrderAsPaid id s = (Ok o, s') →
     SaleOrder.total_price <$> mockSaleOrders s'
       = SaleOrder.total_price <$> mockSaleOrders s)
  ∧ (is_Some (find_customer s (SaleOrderFormData.customer_id orderData)) →
     ∃ o s', createSaleOrder orderData s = (Ok o, s')
             ∧ SaleOrder.total_price o = total
             ∧ last (mockSaleOrders s') = Some o)
  ∧ (is_Some (find_customer s (SaleOrderFormData.customer_id orderData)) →
     is_Some (list_find (is_order id) (mockSaleOrders s)) →
     ∃ o s' i, updateSaleOrder id orderData s = (Ok o, s')
               ∧ SaleOrder.total_price o = total
               ∧ mockSaleOrders s' !! i = Some o).
Proof.
  intros total. unfold total.
  split; [|split; [|split; [|split]]].
  - intros o s' (customer & _ & -> & ->)%createSaleOrder_Ok. cbn.
    split; [apply items_total_sum|]. split; [|done].
    by intros ->.
  - intros o s' (i & order & customer & Hfind & _ & -> & ->)%updateSaleOrder_Ok.
    cbn. split; [apply items_total_sum|]. split; [by intros ->|].
    exists i. split; [|done].
    apply list_find_Some in Hfind as (Hi & _).
    apply list_lookup_insert_eq. by eapply lookup_lt_Some.
  - intros o s' (i & order & Hfind & -> & ->)%markOrderAsPaid_Ok. cbn.
    apply list_find_Some in Hfind as (Hi & _).
    by apply (replace_keeps_field SaleOrder.total_price _ i order).
  - intros [customer Hcustomer]. rewrite createSaleOrder_run, Hcustomer.
    eexists _, _. split; [done|]. cbn.
    split; [apply items_total_sum | apply last_snoc].
  - intros [customer Hcustomer] [[i order] Hfind].
    rewrite updateSaleOrder_run, Hfind, Hcustomer.
    eexists _, _, i. split; [done|]. cbn.
    split; [apply items_total_sum|].
    apply list_find_Some in Hfind as (Hi & _).
    apply list_lookup_insert_eq. by eapply lookup_lt_Some.
Qed.

Lemma total_price_is_sum_of_lines_witness :
  SaleOrder.total_price Scenario.order1 = 300%float
  ∧ SaleOrder.total_price <$> mockSaleOrders (markOrderAsPaid 1 Scenario.s1).2
    = [300%float]
  ∧ ∃ o s', createSaleOrder Decimal.form Scenario.s0 = (Ok o, s')
            ∧ SaleOrder.total_price o = 0.6000000000000001%float
            ∧ last (mockSaleOrders s') = Some o.
Proof.
  destruct (total_price_is_sum_of_lines Scenario.s0 1 Scenario.form)
    as (Hcreate & _ & _).
  destruct (total_price_is_sum_of_lines Scenario.s1 1 Scenario.form)
    as (_ & _ & Hpay & _).
  destruct (total_price_is_sum_of_lines Scenario.s0 1 Decimal.form)
    as (_ & _ & _ & Hdecimal & _).
  split; [|split].
  - by destruct (Hcreate Scenario.order1 (createSaleOrder Scenario.form Scenario.s0).2
                   eq_refl) as (-> & _).
  - by rewrite (Hpay _ _ (surjective_pairing (markOrderAsPaid 1 Scenario.s1))).
  - destruct Hdecimal as (o & s' & Hrun & Htotal & Hlast);
      [by exists Scenario.customer|].
    exists o, s'. split; [exact Hrun|]. split; [|exact Hlast].
    rewrite Htotal. reflexivity.
Defined.

Lemma has_status_partition (o : SaleOrder.t) :
  (has_status active o = true ↔ SaleOrder.paid o = false)
  ∧ (has_status completed o = true ↔ SaleOrder.paid o = true).
Proof. unfold has_status. destruct (SaleOrder.paid o); naive_solver. Qed.

Lemma filter_by_status_partition (orders : list SaleOrder.t) :
  filter (λ o, has_status active o = true) orders
    ++ filter (λ o, has_status completed o = true) orders
  ≡ₚ orders.
Proof.
  induction orders as [|o orders IH]; [done|].
  rewrite !filter_cons. destruct (has_status_partition o) as [Ha Hc].
  destruct (decide (has_status active o = true)) as [H1|H1],
           (decide (has_status completed o = true)) as [H2|H2].
  - pose proof (proj1 Ha H1). pose proof (proj1 Hc H2). congruence.
  - simpl. by rewrite IH.
  - rewrite <- Permutation_middle. by rewrite IH.
  - destruct (SaleOrder.paid o);
      [destruct H2; by apply Hc | destruct H1; by apply Ha].
Qed.

(** C2. [getSaleOrders(status)] changes nothing and returns exactly the
    stored orders with [paid == false] for [active] and with [paid == true]
    for [completed], each as often as it is stored.  The result is in
    descending order of [last_modified] (read as a time), and orders with the
    same time keep the order they have in the store; these two properties
    leave one possible result.  The two results together are a rearrangement
    of the whole store, and no order is in both. *)
Theorem getSaleOrders_filters_and_sorts (getTime : string → Z) (s : State)
    (status : OrderStatus) :
  let time (o : SaleOrder.t) := getTime (SaleOrder.last_modified o) in
  let wanted (o : SaleOrder.t) :=
    SaleOrder.paid o = match status with active => false | completed => true end in
  ∃ result result_active result_completed,
    getSaleOrders getTime status s = (Ok result, s)
    ∧ result ≡ₚ filter wanted (mockSaleOrders s)
    ∧ (∀ o, o ∈ result ↔ o ∈ mockSaleOrders s ∧ wanted o)
    ∧ Sorted (λ a b, time b ≤ time a) result
    ∧ (∀ t, filter (λ o, time o = t) result
            = filter (λ o, time o = t) (filter wanted (mockSaleOrders s)))
    ∧ (∀ other,
         Sorted (λ a b, time b ≤ time a) other →
         (∀ t, filter (λ o, time o = t) other
               = filter (λ o, time o = t) (filter wanted (mockSaleOrders s))) →
         other = result)
    ∧ getSaleOrders getTime active s = (Ok result_active, s)
    ∧ getSaleOrders getTime completed s = (Ok result_completed, s)
    ∧ result_active ++ result_completed ≡ₚ mockSaleOrders s
    ∧ (∀ o, o ∈ result_active → SaleOrder.paid o = false)
    ∧ (∀ o, o ∈ result_completed → SaleOrder.paid o = true).
Proof.
  intros time wanted.
  exists (listOrders getTime status (mockSaleOrders s)),
         (listOrders getTime active (mockSaleOrders s)),
         (listOrders getTime completed (mockSaleOrders s)).
  assert (Hsame : filter (λ o, has_status status o = true) (mockSaleOrders s)
                  = filter wanted (mockSaleOrders s)).
  { apply list_filter_iff. intros o. unfold wanted.
    destruct status; apply has_status_partition. }
  assert (Hperm : ∀ st, listOrders getTime st (mockSaleOrders s)
                        ≡ₚ filter (λ o, has_status st o = true) (mockSaleOrders s)).
  { intros st. apply (Array_sort_perm time). }
  split; [done|]. split; [by rewrite Hperm, Hsame|]. split.
  { intros o. rewrite Hperm, Hsame, list_elem_of_filter. tauto. }
  split; [apply (Array_sort_sorted time)|]. split.
  { intros t. unfold listOrders. rewrite Hsame.
    apply (Array_sort_stable time). }
  split.
  { intros other Hsorted Hstable. unfold listOrders. rewrite Hsame.
    by apply (Array_sort_unique time). }
  split; [done|]. split; [done|]. split.
  { rewrite !Hperm. apply filter_by_status_partition. }
  split; intros o; rewrite Hperm, list_elem_of_filter;
    intros [Hst _]; by apply has_status_partition.
Qed.

Lemma getSaleOrders_filters_and_sorts_witness :
  getSaleOrders Listing.millis active Listing.s
  = (Ok [Listing.c; Listing.a; Listing.d], Listing.s).
Proof.
  destruct (getSaleOrders_filters_and_sorts Listing.millis Listing.s active)
    as (result & _ & _ & Hrun & _ & _ & _ & _ & Hunique & _).
  rewrite Hrun. do 2 f_equal. symmetry. apply Hunique.
  - repeat constructor; by vm_compute.
  - intros t.
    change (filter _ (mockSaleOrders Listing.s))
      with [Listing.a; Listing.c; Listing.d].
    rewrite !filter_cons, !filter_nil.
    change (Listing.millis (SaleOrder.last_modified Listing.a))
      with 1704103200001.
    change (Listing.millis (SaleOrder.last_modified Listing.c))
      with 1704103200002.
    change (Listing.millis (SaleOrder.last_modified Listing.d))
      with 1704103200001.
    destruct (decide (1704103200002 = t)) as [<-|];
      destruct (decide (1704103200001 = _)); done.
Defined.

(** ** The inventory, SKU by SKU *)

Lemma list_find_alter_preserved {A} (P : A → Prop) `{∀ x, Decision (P x)}
    (f : A → A) (i : nat) (l : list A) :
  (∀ x, P (f x) ↔ P x) →
  list_find P (alter f i l)
  = (λ nx, (nx.1, if decide (nx.1 = i) then f nx.2 else nx.2))
      <$> list_find P l.
Proof.
  intros Hf. revert i. induction l as [|x l IH]; intros i; [done|].
  destruct i as [|i]; simpl.
  - pose proof (Hf x) as Hx.
    destruct (decide (P (f x))) as [HP|HP], (decide (P x)) as [HP'|HP'];
      try tauto; try done.
    destruct (list_find P l) as [[n y]|]; [|done].
    done.
  - destruct (decide (P x)) as [HP|HP]; [done|].
    change (list_alter f i l) with (alter f i l).
    rewrite IH. destruct (list_find P l) as [[n y]|]; [|done].
    cbn [fmap option_fmap option_map prod_map fst snd id].
    destruct (decide (n = i)) as [->|Hne].
    + by rewrite decide_True.
    + by rewrite decide_False by lia.
Qed.

Lemma decrement_id q sku : SKU.id (decrement q sku) = SKU.id sku.
Proof. done. Qed.

Lemma decrement_0 sku : decrement 0 sku = sku.
Proof. destruct sku. unfold decrement. simpl. f_equal. lia. Qed.

Lemma decrement_decrement a b sku :
  decrement a (decrement b sku) = decrement (b + a) sku.
Proof. unfold decrement. simpl. f_equal. lia. Qed.

Lemma has_sku_alter_decrement sku_id q j p :
  has_sku sku_id (set_sku (alter (decrement q) j (Product.sku p)) p)
  ↔ has_sku sku_id p.
Proof.
  unfold has_sku. simpl. rewrite !Exists_exists. split.
  - intros (sku & Hin & Hid).
    apply list_elem_of_lookup in Hin as [n Hn].
    destruct (decide (j = n)) as [->|Hne].
    + rewrite list_lookup_alter_eq in Hn.
      destruct (Product.sku p !! n) as [sku0|] eqn:Hn0; [|done].
      injection Hn as <-. exists sku0. split; [|done].
      by eapply list_elem_of_lookup_2.
    + rewrite list_lookup_alter_ne in Hn by done.
      exists sku. split; [|done]. by eapply list_elem_of_lookup_2.
  - intros (sku & Hin & Hid).
    apply list_elem_of_lookup in Hin as [n Hn].
    destruct (decide (j = n)) as [->|Hne].
    + exists (decrement q sku). split; [|done].
      apply (list_elem_of_lookup_2 _ n). by rewrite list_lookup_alter_eq, Hn.
    + exists sku. split; [|done].
      apply (list_elem_of_lookup_2 _ n). by rewrite list_lookup_alter_ne.
Qed.

Lemma locate_decrement_at i j q products sku_id :
  locate (decrement_at i j q products) sku_id = locate products sku_id.
Proof.
  unfold locate, decrement_at.
  rewrite (list_find_alter_preserved (has_sku sku_id))
    by (intros p; apply has_sku_alter_decrement).
  destruct (list_find (has_sku sku_id) products) as [[n p]|]; [|done].
  simpl. destruct (decide (n = i)) as [_|_]; [|done].
  simpl. rewrite (list_find_alter_preserved (λ sku, SKU.id sku = sku_id))
    by done.
  by destruct (list_find _ (Product.sku p)) as [[m sku]|].
Qed.

Lemma sku_at_decrement_at i j q products i' j' :
  sku_at (decrement_at i j q products) i' j'
  = decrement (if decide ((i, j) = (i', j')) then q else 0)
      <$> sku_at products i' j'.
Proof.
  unfold sku_at, decrement_at.
  destruct (decide (i = i')) as [<-|Hi].
  - rewrite list_lookup_alter_eq.
    destruct (products !! i) as [p|]; [|done]. simpl.
    destruct (decide (j = j')) as [<-|Hj].
    + rewrite list_lookup_alter_eq, decide_True by done. done.
    + rewrite list_lookup_alter_ne, decide_False by congruence.
      destruct (Product.sku p !! j') as [sku|]; [|done].
      simpl. by rewrite decrement_0.
  - rewrite list_lookup_alter_ne, decide_False by congruence.
    destruct (products !! i' ≫= _) as [sku|]; [|done].
    simpl. by rewrite decrement_0.
Qed.

Lemma without_inventory_decrement_at i j q products :
  without_inventory (decrement_at i j q products) = without_inventory products.
Proof.
  unfold without_inventory, decrement_at.
  rewrite (list_fmap_alter _ _ id).
  - by apply list_alter_id.
  - apply Forall_forall. intros p _. unfold set_sku. simpl. f_equal.
    apply list_eq. intros n. rewrite !list_lookup_fmap.
    destruct (decide (j = n)) as [->|Hne].
    + rewrite list_lookup_alter_eq.
      destruct (Product.sku p !! n) as [sku|]; [|done].
      done.
    + by rewrite list_lookup_alter_ne.
Qed.

Lemma update_inventory_of_locate item products :
  update_inventory_of item products
  = match locate products (OrderItem.sku_id item) with
    | None => products
    | Some (i, j) => decrement_at i j (OrderItem.quantity item) products
    end.
Proof.
  unfold update_inventory_of, locate, Array_findIndex.
  destruct (list_find (has_sku _) products) as [[i p]|] eqn:Hfind; [|done].
  simpl. apply list_find_Some in Hfind as (-> & _ & _).
  by destruct (list_find _ (Product.sku p)) as [[j sku]|].
Qed.

Lemma locate_Some products sku_id i j :
  locate products sku_id = Some (i, j) →
  ∃ sku, sku_at products i j = Some sku ∧ SKU.id sku = sku_id.
Proof.
  unfold locate, sku_at.
  destruct (list_find (has_sku _) products) as [[i' p]|] eqn:Hp; [|done].
  destruct (list_find _ (Product.sku p)) as [[j' sku]|] eqn:Hsku; [|done].
  intros [= -> ->].
  apply list_find_Some in Hp as (Hp & _ & _).
  apply list_find_Some in Hsku as (Hsku & Hid & _).
  exists sku. by rewrite Hp.
Qed.

Lemma locate_None products sku_id :
  locate products sku_id = None
  ↔ ∀ i j sku, sku_at products i j = Some sku → SKU.id sku ≠ sku_id.
Proof.
  unfold locate, sku_at. split.
  - intros Hnone i j sku Hat Hid.
    destruct (products !! i) as [p|] eqn:Hp; [|done]. simpl in Hat.
    assert (Hhas : has_sku sku_id p).
    { apply Exists_exists. exists sku. split; [|done].
      by eapply list_elem_of_lookup_2. }
    destruct (list_find_elem_of (has_sku sku_id) products p) as [[i' p'] Hf];
      [by eapply list_elem_of_lookup_2 | done |].
    rewrite Hf in Hnone.
    apply list_find_Some in Hf as (_ & Hhas' & _).
    apply Exists_exists in Hhas' as (sku' & Hin' & Hid').
    destruct (list_find_elem_of (λ sku, SKU.id sku = sku_id)
                (Product.sku p') sku') as [[j' sku''] Hf']; [done..|].
    by rewrite Hf' in Hnone.
  - intros Hall.
    destruct (list_find (has_sku _) products) as [[i p]|] eqn:Hp; [|done].
    destruct (list_find _ (Product.sku p)) as [[j sku]|] eqn:Hsku; [|done].
    apply list_find_Some in Hp as (Hp & _ & _).
    apply list_find_Some in Hsku as (Hsku & Hid & _).
    destruct (Hall i j sku); [|done]. by rewrite Hp.
Qed.

Lemma ordered_cons sku_id item items :
  ordered sku_id (item :: items)
  = (if decide (OrderItem.sku_id item = sku_id)
     then OrderItem.quantity item else 0) + ordered sku_id items.
Proof.
  unfold ordered. rewrite filter_cons.
  destruct (decide (OrderItem.sku_id item = sku_id)); [done|].
  by rewrite Z.add_0_l.
Qed.

Lemma inventory_after_cons item items products :
  inventory_after (item :: items) products
  = inventory_after items (update_inventory_of item products).
Proof. done. Qed.

Lemma locate_inventory_after items products sku_id :
  locate (inventory_after items products) sku_id = locate products sku_id.
Proof.
  revert products. induction items as [|item items IH]; intros products;
    [done|].
  rewrite inventory_after_cons.
  rewrite IH, update_inventory_of_locate.
  destruct (locate products (OrderItem.sku_id item)) as [[i j]|]; [|done].
  apply locate_decrement_at.
Qed.

Lemma without_inventory_inventory_after items products :
  without_inventory (inventory_after items products)
  = without_inventory products.
Proof.
  revert products. induction items as [|item items IH]; intros products;
    [done|].
  rewrite inventory_after_cons.
  rewrite IH, update_inventory_of_locate.
  destruct (locate products (OrderItem.sku_id item)) as [[i j]|]; [|done].
  apply without_inventory_decrement_at.
Qed.

(** The net effect of the inventory [forEach]: the SKU at which the lookup
    of an id arrives loses the quantity ordered of that id; every other SKU
    keeps its quantity. *)
Lemma sku_at_inventory_after items products i j :
  sku_at (inventory_after items products) i j
  = (λ sku,
      decrement (if decide (locate products (SKU.id sku) = Some (i, j))
                 then ordered (SKU.id sku) items else 0) sku)
      <$> sku_at products i j.
Proof.
  revert products. induction items as [|item items IH]; intros products.
  - cbn [inventory_after foldl].
    destruct (sku_at products i j) as [sku|]; [|done].
    simpl. f_equal.
    destruct (decide (locate products (SKU.id sku) = Some (i, j)));
      symmetry; apply decrement_0.
  - rewrite inventory_after_cons.
    rewrite IH, update_inventory_of_locate.
    destruct (locate products (OrderItem.sku_id item)) as [[a b]|] eqn:Hloc.
    + rewrite sku_at_decrement_at.
      destruct (sku_at products i j) as [sku|] eqn:Hat; [|done].
      simpl. f_equal. rewrite locate_decrement_at, decrement_decrement.
      f_equal. rewrite ordered_cons.
      apply locate_Some in Hloc as Hsku. destruct Hsku as (sku' & Hat' & Hid').
      destruct (decide ((a, b) = (i, j))) as [[= -> ->]|Hne].
      * assert (sku' = sku) as -> by congruence.
        rewrite Hid', Hloc, !decide_True by done. done.
      * destruct (decide (locate products (SKU.id sku) = Some (i, j)))
          as [Hl|Hl]; [|done].
        rewrite decide_False; [done|].
        intros Heq. rewrite Heq, Hl in Hloc. congruence.
    + destruct (sku_at products i j) as [sku|] eqn:Hat; [|done].
      simpl. f_equal. f_equal. rewrite ordered_cons.
      destruct (decide (locate products (SKU.id sku) = Some (i, j)))
        as [Hl|Hl]; [|done].
      rewrite decide_False; [done|].
      intros Heq. rewrite Heq, Hl in Hloc. congruence.
Qed.

(** C3. After a successful [createSaleOrder], the SKU that the lookup of a
    [sku_id] arrives at has lost exactly the quantities of the items naming
    that [sku_id] (each item's quantity once), every other SKU and every other
    field of the catalog is as before, and an item whose [sku_id] is in no
    product changes nothing.  [updateSaleOrder] and [markOrderAsPaid],
    succeeding or failing, return the catalog untouched. *)
Theorem inventory_decremented_on_create_only (s : State) (id : Z)
    (orderData : SaleOrderFormData.t) :
  (∀ o s', createSaleOrder orderData s = (Ok o, s') →
     (∀ i j sku, sku_at (mockProducts s) i j = Some sku →
        sku_at (mockProducts s') i j
        = Some (decrement
                  (if decide (locate (mockProducts s) (SKU.id sku) = Some (i, j))
                   then ordered (SKU.id sku) (SaleOrderFormData.items orderData)
                   else 0) sku))
     ∧ without_inventory (mockProducts s') = without_inventory (mockProducts s)
     ∧ ((∀ item, item ∈ SaleOrderFormData.items orderData →
           locate (mockProducts s) (OrderItem.sku_id item) = None) →
        mockProducts s' = mockProducts s))
  ∧ (∀ item products,
       locate products (OrderItem.sku_id item) = None →
       update_inventory_of item products = products)
  ∧ (∀ item products i j sku,
       locate products (OrderItem.sku_id item) = Some (i, j) →
       sku_at products i j = Some sku →
       SKU.id sku = OrderItem.sku_id item
       ∧ sku_at (update_inventory_of item products) i j
         = Some (decrement (OrderItem.quantity item) sku))
  ∧ (∀ r s', updateSaleOrder id orderData s = (r, s') →
       mockProducts s' = mockProducts s)
  ∧ (∀ r s', markOrderAsPaid id s = (r, s') →
       mockProducts s' = mockProducts s).
Proof.
  split; [|split; [|split; [|split]]].
  - intros o s' (customer & _ & -> & ->)%createSaleOrder_Ok. cbn.
    split; [|split].
    + intros i j sku Hat. by rewrite sku_at_inventory_after, Hat.
    + apply without_inventory_inventory_after.
    + generalize (mockProducts s) as products.
      induction (SaleOrderFormData.items orderData) as [|item items IH];
        intros products Hnone; [done|].
      rewrite inventory_after_cons, update_inventory_of_locate.
      rewrite (Hnone item) by left.
      apply IH. intros item' Hin. apply Hnone. by right.
  - intros item products Hnone.
    by rewrite update_inventory_of_locate, Hnone.
  - intros item products i j sku Hloc Hat.
    rewrite update_inventory_of_locate, Hloc, sku_at_decrement_at, Hat.
    rewrite decide_True by done. split; [|done].
    apply locate_Some in Hloc as (sku' & Hat' & Hid). congruence.
  - intros r s'. rewrite updateSaleOrder_run.
    destruct (list_find _ _) as [[orderIndex order]|]; [|by intros [= _ <-]].
    destruct (find_customer _ _); by intros [= _ <-].
  - intros r s'. rewrite markOrderAsPaid_run.
    destruct (list_find _ _) as [[orderIndex order]|]; by intros [= _ <-].
Qed.

Lemma inventory_decremented_on_create_only_witness :
  sku_at (mockProducts (createSaleOrder Scenario.form Scenario.s0).2) 0 0
  = Some (SKU.mk 10 100 120 1 "kg" 47 1)
  ∧ mockProducts (updateSaleOrder 1 Scenario.form Scenario.s1).2
    = mockProducts Scenario.s1
  ∧ mockProducts (markOrderAsPaid 1 Scenario.s1).2 = mockProducts Scenario.s1.
Proof.
  destruct (inventory_decremented_on_create_only Scenario.s0 1 Scenario.form)
    as (Hcreate & _).
  destruct (inventory_decremented_on_create_only Scenario.s1 1 Scenario.form)
    as (_ & _ & _ & Hupdate & Hpay).
  split; [|split].
  - destruct (Hcreate _ _ (surjective_pairing
                             (createSaleOrder Scenario.form Scenario.s0)))
      as (Hsku & _).
    by rewrite (Hsku 0%nat 0%nat Scenario.widget_sku eq_refl).
  - apply (Hupdate _ _ (surjective_pairing _)).
  - apply (Hpay _ _ (surjective_pairing _)).
Defined.

(** ** Identifiers *)

Lemma Math_max_snoc_succ (ids : list Z) :
  Math_max 0 (ids ++ [Math_max 0 ids + 1]) = Math_max 0 ids + 1.
Proof. rewrite Math_max_app. unfold Math_max at 1. simpl. lia. Qed.

Lemma createSaleOrders_ids (forms : list SaleOrderFormData.t) (s : State) :
  (∀ form, form ∈ forms →
     is_Some (find_customer s (SaleOrderFormData.customer_id form))) →
  ∃ os s',
    createSaleOrders forms s = (Ok os, s')
    ∧ SaleOrder.id <$> os
      = (λ k, Math_max 0 (SaleOrder.id <$> mockSaleOrders s) + Z.of_nat k)
          <$> seq 1 (length forms)
    ∧ mockSaleOrders s' = mockSaleOrders s ++ os.
Proof.
  revert s. induction forms as [|form forms IH]; intros s Hcust.
  - exists [], s. by rewrite app_nil_r.
  - destruct (Hcust form) as [customer Hfind]; [by left|].
    destruct (IH (after_create s form customer)) as (os & s' & Hrun & Hids & Hst).
    { intros form' Hin. apply (Hcust form'). by right. }
    exists (created_order s form customer :: os), s'.
    cbn [createSaleOrders]. unfold mbind, M_bind.
    rewrite createSaleOrder_run, Hfind, Hrun. split; [done|].
    cbn [after_create mockSaleOrders] in Hids, Hst.
    rewrite fmap_app in Hids. cbn [fmap list_fmap created_order SaleOrder.id] in Hids.
    rewrite Math_max_snoc_succ in Hids.
    split.
    + rewrite fmap_cons, Hids. cbn [length seq fmap list_fmap SaleOrder.id created_order].
      f_equal. rewrite <- (fmap_S_seq 1), <- list_fmap_compose.
      apply list_fmap_ext. intros _ k _. simpl. lia.
    + rewrite Hst, <- app_assoc. done.
Qed.

(** C4. In a store whose identifiers are positive integers (below 2^53,
    where a JS number holds every integer exactly), [createSaleOrder] gives
    the new order the identifier [m + 1], [m] being the greatest existing
    identifier, and 1 when the store is empty.  It succeeds whenever the
    customer is found, and appends the order.  The new identifier is
    greater than every existing one and positive, so distinct identifiers
    stay distinct and positive identifiers stay positive, whichever
    operation runs.  From an empty store, [N] creations in a row (each with
    a known customer) succeed, give the identifiers 1 to [N] in creation
    order, and leave exactly these orders in the store, in that order. *)
Theorem new_id_is_max_plus_one (s : State) (id : Z)
    (orderData : SaleOrderFormData.t) (forms : list SaleOrderFormData.t) :
  let ids (s : State) := SaleOrder.id <$> mockSaleOrders s in
  (∀ x, x ∈ ids s → 0 < x < 2 ^ 53) →
  (is_Some (find_customer s (SaleOrderFormData.customer_id orderData)) →
     ∃ o s', createSaleOrder orderData s = (Ok o, s')
             ∧ ids s' = ids s ++ [SaleOrder.id o])
  ∧ (∀ o s', createSaleOrder orderData s = (Ok o, s') →
       SaleOrder.id o = Math_max 0 (ids s) + 1
       ∧ (ids s = [] → SaleOrder.id o = 1)
       ∧ (∀ m, m ∈ ids s → (∀ x, x ∈ ids s → x ≤ m) →
            SaleOrder.id o = m + 1)
       ∧ (∀ x, x ∈ ids s → x < SaleOrder.id o)
       ∧ 0 < SaleOrder.id o ≤ 2 ^ 53
       ∧ (NoDup (ids s) → NoDup (ids s')))
  ∧ (∀ x, x ∈ ids (createSaleOrder orderData s).2
          ∨ x ∈ ids (updateSaleOrder id orderData s).2
          ∨ x ∈ ids (markOrderAsPaid id s).2 → 0 < x)
  ∧ (mockSaleOrders s = [] →
     (∀ form, form ∈ forms →
        is_Some (find_customer s (SaleOrderFormData.customer_id form))) →
     ∃ os s',
       createSaleOrders forms s = (Ok os, s')
       ∧ SaleOrder.id <$> os = Z.of_nat <$> seq 1 (length forms)
       ∧ mockSaleOrders s' = os).
Proof.
  intros ids Hrange.
  destruct (Math_max_from 0 (ids s)) as (H0 & Hall & Hin).
  rewrite Forall_forall in Hall. cbn beta in Hall.
  assert (Hnew : 0 < Math_max 0 (ids s) + 1 ≤ 2 ^ 53).
  { destruct Hin as [Heq|Hin]; [lia|]. pose proof (Hrange _ Hin). lia. }
  split; [|split; [|split]].
  - intros [customer Hfind]. rewrite createSaleOrder_run, Hfind.
    eexists _, _. split; [done|]. unfold ids. cbn. by rewrite fmap_app.
  - intros o s' (customer & _ & -> & ->)%createSaleOrder_Ok.
    cbn [created_order SaleOrder.id]. fold (ids s).
    split; [done|]. split; [|split; [|split; [|split]]].
    + intros Hempty. rewrite Hempty. done.
    + intros m Hm Hmax. destruct Hin as [Heq|Hin].
      * pose proof (Hall m Hm). pose proof (Hrange m Hm). lia.
      * pose proof (Hall m Hm). pose proof (Hmax _ Hin). lia.
    + intros x Hx. pose proof (Hall x Hx). lia.
    + done.
    + unfold ids. cbn [after_create mockSaleOrders]. rewrite fmap_app.
      apply fresh_id_distinct.
  - intros x. unfold ids.
    rewrite createSaleOrder_run, updateSaleOrder_run, markOrderAsPaid_run.
    assert (Hold : x ∈ ids s → 0 < x).
    { intros Hx. by destruct (Hrange x Hx). }
    intros [Hx|[Hx|Hx]].
    + destruct (find_customer _ _) as [customer|]; [|by apply Hold].
      cbn in Hx. rewrite fmap_app in Hx.
      apply elem_of_app in Hx as [Hx|Hx]; [by apply Hold|].
      apply list_elem_of_singleton in Hx as ->. cbn. fold (ids s). lia.
    + destruct (list_find _ _) as [[i old]|] eqn:Hfind; [|by apply Hold].
      apply list_find_Some in Hfind as (Hi & _).
      destruct (find_customer _ _) as [customer|]; [|by apply Hold].
      cbn in Hx. rewrite (replace_keeps_field SaleOrder.id _ i old) in Hx;
        [by apply Hold | done | done].
    + destruct (list_find _ _) as [[i old]|] eqn:Hfind; [|by apply Hold].
      apply list_find_Some in Hfind as (Hi & _).
      cbn in Hx. rewrite (replace_keeps_field SaleOrder.id _ i old) in Hx;
        [by apply Hold | done | done].
  - intros Hempty Hcust.
    destruct (createSaleOrders_ids forms s Hcust)
      as (os & s' & Hrun & Hids & Hst).
    exists os, s'. split; [done|]. rewrite Hempty in Hids, Hst.
    split; [|done]. rewrite Hids. apply list_fmap_ext. intros _ k _.
    unfold Math_max. simpl. lia.
Qed.

Lemma new_id_is_max_plus_one_witness :
  (∃ o s', createSaleOrder Scenario.form Scenario.s1 = (Ok o, s')
           ∧ SaleOrder.id o = 2
           ∧ SaleOrder.id <$> mockSaleOrders s' = [1; 2])
  ∧ ∃ os s',
      createSaleOrders [Scenario.form; Scenario.form; Scenario.form] Scenario.s0
      = (Ok os, s')
      ∧ SaleOrder.id <$> os = [1; 2; 3]
      ∧ mockSaleOrders s' = os.
Proof.
  assert (Hknown : ∀ form,
            form ∈ [Scenario.form; Scenario.form; Scenario.form] →
            is_Some (find_customer Scenario.s0
                       (SaleOrderFormData.customer_id form))).
  { intros form Hin. exists Scenario.customer.
    repeat (apply elem_of_cons in Hin as [->|Hin]; [reflexivity|]).
    inversion Hin. }
  split.
  - destruct (new_id_is_max_plus_one Scenario.s1 1 Scenario.form [])
      as (Hruns & Hid & _).
    { intros x ->%list_elem_of_singleton. cbn. lia. }
    destruct Hruns as (o & s' & Hrun & Hids); [by eexists|].
    exists o, s'. split; [exact Hrun|].
    destruct (Hid o s' Hrun) as (_ & _ & Hmax & _).
    assert (Ho : SaleOrder.id o = 2).
    { apply (Hmax 1); [by left|].
      intros x ->%list_elem_of_singleton. cbn. lia. }
    split; [exact Ho|]. rewrite Hids, Ho. reflexivity.
  - destruct (new_id_is_max_plus_one Scenario.s0 1 Scenario.form
                [Scenario.form; Scenario.form; Scenario.form])
      as (_ & _ & _ & Hmany).
    { intros x Hx. inversion Hx. }
    apply Hmany; [done | exact Hknown].
Defined.

(** ** Product names on order items *)

Lemma with_product_name_assembled products item :
  assembled products item (with_product_name products item).
Proof.
  unfold assembled, with_product_name. cbn.
  do 3 (split; [done|]). eexists. split; [done|].
  unfold Array_find, resolves_to.
  destruct (list_find _ products) as [[n q]|] eqn:Hfind; cbn.
  - apply list_find_Some in Hfind as (Hn & Hq & Hleast). split.
    + intros Hnone. destruct (Hnone q); [|done].
      by eapply list_elem_of_lookup_2.
    + intros i p Hi Hp Hfirst.
      assert (i = n) as ->.
      { pose proof (Hfirst n q Hn Hq).
        destruct (decide (i < n)%nat) as [Hlt|]; [|lia].
        by destruct (Hleast i p Hi Hlt). }
      assert (p = q) as -> by congruence.
      by destruct (decide (Product.name q = "")).
  - apply list_find_None in Hfind. rewrite Forall_forall in Hfind.
    split; [done|]. intros i p Hi Hp _.
    destruct (Hfind p); [|done]. by eapply list_elem_of_lookup_2.
Qed.

Lemma fmap_with_product_name_assembled products items :
  Forall2 (assembled products) items (with_product_name products <$> items).
Proof.
  induction items as [|item items IH]; constructor; [|done].
  apply with_product_name_assembled.
Qed.

(** C5, as stated, fails: SKU 20 belongs to a product, yet the item gets
    the sentinel and not that product's name, because the name is empty. *)
Lemma sentinel_for_a_sku_in_the_catalog :
  BlankName.nameless ∈ mockProducts BlankName.s
  ∧ has_sku 20 BlankName.nameless
  ∧ Product.name BlankName.nameless = ""
  ∧ ∃ o, (createSaleOrder BlankName.form BlankName.s).1 = Ok o
         ∧ OrderItem.product_name <$> SaleOrder.items o
           = [Some "Unknown Product"].
Proof.
  split; [by right; left|]. split; [by repeat constructor|]. split; [done|].
  eexists. split; by vm_compute.
Qed.

(** C5, amended. In [createSaleOrder] and [updateSaleOrder] each item of
    the result is the submitted item, in the same position, with
    [product_name] set: to the name of the first product whose SKUs include
    the item's [sku_id] when that name is not empty, and to
    "Unknown Product" when no product has that [sku_id] or that first
    product's name is empty.  The items never make the operation fail: it
    succeeds whenever the customer (and, for update, the order) is found. *)
Theorem product_name_resolved_or_sentinel (s : State) (id : Z)
    (orderData : SaleOrderFormData.t) :
  (∀ o s', createSaleOrder orderData s = (Ok o, s') →
     Forall2 (assembled (mockProducts s))
       (SaleOrderFormData.items orderData) (SaleOrder.items o))
  ∧ (∀ o s', updateSaleOrder id orderData s = (Ok o, s') →
     Forall2 (assembled (mockProducts s))
       (SaleOrderFormData.items orderData) (SaleOrder.items o))
  ∧ (is_Some (find_customer s (SaleOrderFormData.customer_id orderData)) →
     ∃ o s', createSaleOrder orderData s = (Ok o, s'))
  ∧ (is_Some (find_customer s (SaleOrderFormData.customer_id orderData)) →
     is_Some (list_find (is_order id) (mockSaleOrders s)) →
     ∃ o s', updateSaleOrder id orderData s = (Ok o, s')).
Proof.
  split; [|split; [|split]].
  - intros o s' (customer & _ & -> & _)%createSaleOrder_Ok.
    apply fmap_with_product_name_assembled.
  - intros o s' (i & order & customer & _ & _ & -> & _)%updateSaleOrder_Ok.
    apply fmap_with_product_name_assembled.
  - intros [customer Hc]. rewrite createSaleOrder_run, Hc. eauto.
  - intros [customer Hc] [[i order] Ho].
    rewrite updateSaleOrder_run, Ho, Hc. eauto.
Qed.

Lemma product_name_resolved_or_sentinel_witness :
  Forall2 (assembled (mockProducts Scenario.s0))
    [OrderItem.mk 10 100 3 None] [OrderItem.mk 10 100 3 (Some "Widget")]
  ∧ ∃ o s', createSaleOrder BlankName.form BlankName.s = (Ok o, s').
Proof.
  destruct (product_name_resolved_or_sentinel Scenario.s0 1 Scenario.form)
    as (Hcreate & _).
  destruct (product_name_resolved_or_sentinel BlankName.s 1 BlankName.form)
    as (_ & _ & Hruns & _).
  split.
  - apply (Hcreate Scenario.order1
             (createSaleOrder Scenario.form Scenario.s0).2 eq_refl).
  - apply Hruns. by exists Scenario.customer.
Defined.

(** ** Failures *)

(** C6. [updateSaleOrder] and [markOrderAsPaid] throw "Order not found"
    exactly when no stored order has the given id.  [createSaleOrder] throws
    "Customer not found" exactly when no customer's profile id is the given
    [customer_id]; [updateSaleOrder] throws it exactly when the order id is
    in the store and no customer's profile id is the given [customer_id].
    No operation throws anything else. *)
Theorem not_found_failures (s : State) (id : Z)
    (orderData : SaleOrderFormData.t) :
  let no_order := ∀ o, o ∈ mockSaleOrders s → SaleOrder.id o ≠ id in
  let no_customer :=
    ∀ c, c ∈ mockCustomers s →
         CustomerProfile.id (Customer.customer_profile c)
         ≠ SaleOrderFormData.customer_id orderData in
  ((updateSaleOrder id orderData s).1 = Throw OrderNotFound ↔ no_order)
  ∧ ((markOrderAsPaid id s).1 = Throw OrderNotFound ↔ no_order)
  ∧ ((createSaleOrder orderData s).1 = Throw CustomerNotFound ↔ no_customer)
  ∧ ((updateSaleOrder id orderData s).1 = Throw CustomerNotFound
     ↔ (∃ o, o ∈ mockSaleOrders s ∧ SaleOrder.id o = id) ∧ no_customer)
  ∧ (∀ e, (createSaleOrder orderData s).1 = Throw e → e = CustomerNotFound)
  ∧ (∀ e, (updateSaleOrder id orderData s).1 = Throw e →
          e = OrderNotFound ∨ e = CustomerNotFound)
  ∧ (∀ e, (markOrderAsPaid id s).1 = Throw e → e = OrderNotFound).
Proof.
  intros no_order no_customer.
  rewrite updateSaleOrder_run, markOrderAsPaid_run, createSaleOrder_run.
  pose proof (find_order_None (mockSaleOrders s) id) as Horder.
  pose proof (find_customer_None s (SaleOrderFormData.customer_id orderData))
    as Hcustomer.
  fold no_order in Horder. fold no_customer in Hcustomer.
  assert (Hthrown : ∀ e e' : Exception, @Throw SaleOrder.t e = Throw e' → e' = e)
    by (by intros e e' [= ->]).
  destruct (list_find (is_order id) (mockSaleOrders s)) as [[i o]|] eqn:Hfind.
  - assert (Hno : ¬ no_order) by (by intros H%Horder).
    assert (Hex : ∃ o, o ∈ mockSaleOrders s ∧ SaleOrder.id o = id).
    { apply list_find_Some in Hfind as (Hi & Ho & _). exists o.
      split; [|done]. by eapply list_elem_of_lookup_2. }
    destruct (find_customer s _) as [customer|]; cbn.
    + assert (Hnc : ¬ no_customer) by (by intros H%Hcustomer).
      repeat split; try done; tauto.
    + assert (Hyc : no_customer) by (by apply Hcustomer).
      repeat split; try done; try tauto; intros e He%Hthrown; auto.
  - assert (Hyo : no_order) by (by apply Horder).
    assert (Hnex : ¬ ∃ o, o ∈ mockSaleOrders s ∧ SaleOrder.id o = id).
    { intros (o & Hin & Hid). by destruct (Hyo o Hin). }
    destruct (find_customer s _) as [customer|]; cbn.
    + assert (Hnc : ¬ no_customer) by (by intros H%Hcustomer).
      repeat split; try done; try tauto; intros e He%Hthrown; auto.
    + assert (Hyc : no_customer) by (by apply Hcustomer).
      repeat split; try done; try tauto; intros e He%Hthrown; auto.
Qed.

Lemma not_found_failures_witness :
  (updateSaleOrder 9 Scenario.form Scenario.s1).1 = Throw OrderNotFound
  ∧ (markOrderAsPaid 9 Scenario.s1).1 = Throw OrderNotFound
  ∧ (createSaleOrder Failing.form Scenario.s1).1 = Throw CustomerNotFound
  ∧ (updateSaleOrder 1 Failing.form Scenario.s1).1 = Throw CustomerNotFound.
Proof.
  destruct (not_found_failures Scenario.s1 9 Scenario.form)
    as (Hupdate & Hpay & _).
  destruct (not_found_failures Scenario.s1 1 Failing.form)
    as (_ & _ & Hcreate & Hupdate' & _).
  split; [|split; [|split]].
  - apply Hupdate. by intros o ->%list_elem_of_singleton.
  - apply Hpay. by intros o ->%list_elem_of_singleton.
  - apply Hcreate. by intros c ->%list_elem_of_singleton.
  - apply Hupdate'. split.
    + exists Scenario.order1. split; [by left | done].
    + by intros c ->%list_elem_of_singleton.
Defined.

Lemma find_order_unique (orders : list SaleOrder.t) (i : nat)
    (order : SaleOrder.t) :
  orders !! i = Some order →
  NoDup (SaleOrder.id <$> orders) →
  list_find (is_order (SaleOrder.id order)) orders = Some (i, order).
Proof.
  intros Hi Hnodup. apply list_find_Some. split; [done|]. split; [done|].
  intros j other Hj Hlt Hsame.
  assert (j = i); [|lia].
  apply (NoDup_lookup _ j i (SaleOrder.id order) Hnodup).
  - by rewrite list_lookup_fmap, Hj, <- Hsame.
  - by rewrite list_lookup_fmap, Hi.
Qed.

(** C7. In a store with distinct identifiers, [markOrderAsPaid] on the id
    of a stored order succeeds; the order it returns and stores in the same
    place has [paid = true], [last_modified] set to the clock's reading, and
    all of id, customer_id, customer_name, items, invoice_no, invoice_date,
    created_at and total_price as before.  Every other order, the customers
    and the catalog are unchanged.  On an order that is paid already, the
    result differs from the stored order in [last_modified] at most. *)
Theorem markOrderAsPaid_sets_paid_only (s : State) (i : nat)
    (order : SaleOrder.t) :
  mockSaleOrders s !! i = Some order →
  NoDup (SaleOrder.id <$> mockSaleOrders s) →
  ∃ o s',
    markOrderAsPaid (SaleOrder.id order) s = (Ok o, s')
    ∧ SaleOrder.paid o = true
    ∧ SaleOrder.last_modified o = clock s 0%nat
    ∧ SaleOrder.id o = SaleOrder.id order
    ∧ SaleOrder.customer_id o = SaleOrder.customer_id order
    ∧ SaleOrder.customer_name o = SaleOrder.customer_name order
    ∧ SaleOrder.items o = SaleOrder.items order
    ∧ SaleOrder.invoice_no o = SaleOrder.invoice_no order
    ∧ SaleOrder.invoice_date o = SaleOrder.invoice_date order
    ∧ SaleOrder.created_at o = SaleOrder.created_at order
    ∧ SaleOrder.total_price o = SaleOrder.total_price order
    ∧ mockSaleOrders s' !! i = Some o
    ∧ (∀ j, j ≠ i → mockSaleOrders s' !! j = mockSaleOrders s !! j)
    ∧ length (mockSaleOrders s') = length (mockSaleOrders s)
    ∧ mockCustomers s' = mockCustomers s
    ∧ mockProducts s' = mockProducts s
    ∧ (SaleOrder.paid order = true →
       o = SaleOrder.mk (SaleOrder.id order) (SaleOrder.customer_id order)
             (SaleOrder.customer_name order) (SaleOrder.items order)
             (SaleOrder.paid order) (SaleOrder.invoice_no order)
             (SaleOrder.invoice_date order) (SaleOrder.created_at order)
             (clock s 0%nat) (SaleOrder.total_price order)).
Proof.
  intros Hi Hnodup.
  exists (paid_order s order), (after_replace s i (paid_order s order)).
  rewrite markOrderAsPaid_run, (find_order_unique _ i order) by done.
  do 11 (split; [done|]). cbn. split; [|split; [|split]].
  - apply list_lookup_insert_eq. by eapply lookup_lt_Some.
  - intros j Hne. by apply list_lookup_insert_ne.
  - apply length_insert.
  - do 2 (split; [done|]). by intros ->.
Qed.

Lemma markOrderAsPaid_sets_paid_only_witness :
  ∃ o s',
    markOrderAsPaid 1 Scenario.s1 = (Ok o, s')
    ∧ SaleOrder.paid o = true
    ∧ SaleOrder.total_price o = 300%float
    ∧ mockSaleOrders s' = [o].
Proof.
  destruct (markOrderAsPaid_sets_paid_only Scenario.s1 0 Scenario.order1)
    as (o & s' & Hrun & Hpaid & _ & _ & _ & _ & _ & _ & _ & _ & Htotal & _).
  - reflexivity.
  - apply NoDup_singleton.
  - exists o, s'. split; [exact Hrun|]. split; [exact Hpaid|].
    split; [exact Htotal|].
    change (markOrderAsPaid (SaleOrder.id Scenario.order1) Scenario.s1)
      with (markOrderAsPaid 1 Scenario.s1) in Hrun.
    rewrite markOrderAsPaid_run in Hrun. cbn in Hrun.
    by injection Hrun as <- <-.
Defined.

(** C8. When [createSaleOrder], [updateSaleOrder] or [markOrderAsPaid]
    throws, the state it leaves is the state it was called in: the order
    store, the catalog with its inventory quantities, the customers and the
    clock. *)
Theorem failure_changes_nothing (s : State) (id : Z)
    (orderData : SaleOrderFormData.t) :
  (∀ e s', createSaleOrder orderData s = (Throw e, s') → s' = s)
  ∧ (∀ e s', updateSaleOrder id orderData s = (Throw e, s') → s' = s)
  ∧ (∀ e s', markOrderAsPaid id s = (Throw e, s') → s' = s).
Proof.
  rewrite createSaleOrder_run, updateSaleOrder_run, markOrderAsPaid_run.
  destruct (list_find _ _) as [[orderIndex order]|];
    destruct (find_customer _ _) as [customer|];
    repeat split; intros e s' [= _ <-]; done.
Qed.

Lemma failure_changes_nothing_witness :
  (createSaleOrder Failing.form Scenario.s1).1 = Throw CustomerNotFound
  ∧ (createSaleOrder Failing.form Scenario.s1).2 = Scenario.s1
  ∧ (updateSaleOrder 1 Failing.form Scenario.s1).2 = Scenario.s1
  ∧ (updateSaleOrder 9 Scenario.form Scenario.s1).2 = Scenario.s1
  ∧ (markOrderAsPaid 9 Scenario.s1).1 = Throw OrderNotFound
  ∧ (markOrderAsPaid 9 Scenario.s1).2 = Scenario.s1.
Proof.
  destruct (failure_changes_nothing Scenario.s1 1 Failing.form)
    as (Hcreate & Hupdate & _).
  destruct (failure_changes_nothing Scenario.s1 9 Scenario.form)
    as (_ & Hupdate' & Hpay).
  split; [reflexivity|]. split; [|split; [|split; [|split; [reflexivity|]]]].
  - apply (Hcreate CustomerNotFound). reflexivity.
  - apply (Hupdate CustomerNotFound). reflexivity.
  - apply (Hupdate' OrderNotFound). reflexivity.
  - apply (Hpay OrderNotFound). reflexivity.
Defined.

(** ** Timestamps *)

(** C9, as stated, fails: [createSaleOrder] reads the clock once for
    [created_at] and once more for [last_modified]; when the clock moves
    between the two readings the two timestamps differ. *)
Lemma created_at_differs_from_last_modified :
  (createSaleOrder Scenario.form Scenario.s0).1 = Ok Scenario.order1
  ∧ SaleOrder.created_at Scenario.order1 = "2024-01-01T10:00:00.000Z"
  ∧ SaleOrder.last_modified Scenario.order1 = "2024-01-01T10:00:00.001Z"
  ∧ SaleOrder.created_at Scenario.order1
    ≠ SaleOrder.last_modified Scenario.order1.
Proof. by vm_compute. Qed.

(** C9, amended. [createSaleOrder] sets [created_at] to one reading of
    the clock and [last_modified] to the next reading, so the two are equal
    whenever the clock did not move in between; the orders already stored
    keep their timestamps.  [updateSaleOrder] and [markOrderAsPaid] set
    [last_modified] of the order they replace to the clock's reading and keep
    its [created_at]; no stored order's [created_at] changes. *)
Theorem timestamps_on_mutation (s : State) (id : Z)
    (orderData : SaleOrderFormData.t) :
  (∀ o s', createSaleOrder orderData s = (Ok o, s') →
     SaleOrder.created_at o = clock s 0%nat
     ∧ SaleOrder.last_modified o = clock s 1%nat
     ∧ (clock s 0%nat = clock s 1%nat →
        SaleOrder.created_at o = SaleOrder.last_modified o)
     ∧ mockSaleOrders s' = mockSaleOrders s ++ [o])
  ∧ (∀ o s', updateSaleOrder id orderData s = (Ok o, s') →
     SaleOrder.last_modified o = clock s 0%nat
     ∧ (∃ i old, mockSaleOrders s !! i = Some old
                 ∧ SaleOrder.id old = id
                 ∧ SaleOrder.created_at o = SaleOrder.created_at old
                 ∧ mockSaleOrders s' = <[i := o]> (mockSaleOrders s))
     ∧ SaleOrder.created_at <$> mockSaleOrders s'
       = SaleOrder.created_at <$> mockSaleOrders s)
  ∧ (∀ o s', markOrderAsPaid id s = (Ok o, s') →
     SaleOrder.last_modified o = clock s 0%nat
     ∧ (∃ i old, mockSaleOrders s !! i = Some old
                 ∧ SaleOrder.id old = id
                 ∧ SaleOrder.created_at o = SaleOrder.created_at old
                 ∧ mockSaleOrders s' = <[i := o]> (mockSaleOrders s))
     ∧ SaleOrder.created_at <$> mockSaleOrders s'
       = SaleOrder.created_at <$> mockSaleOrders s).
Proof.
  split; [|split].
  - intros o s' (customer & _ & -> & ->)%createSaleOrder_Ok. cbn.
    by repeat split.
  - intros o s' (i & old & customer & Hfind & _ & -> & ->)%updateSaleOrder_Ok.
    apply list_find_Some in Hfind as (Hi & Hid & _).
    cbn. split; [done|]. split; [by exists i, old|].
    by apply (replace_keeps_field SaleOrder.created_at _ i old).
  - intros o s' (i & old & Hfind & -> & ->)%markOrderAsPaid_Ok.
    apply list_find_Some in Hfind as (Hi & Hid & _).
    cbn. split; [done|]. split; [by exists i, old|].
    by apply (replace_keeps_field SaleOrder.created_at _ i old).
Qed.

Lemma timestamps_on_mutation_witness :
  (∃ o, (createSaleOrder Scenario.form StillClock.s).1 = Ok o
        ∧ SaleOrder.created_at o = SaleOrder.last_modified o)
  ∧ SaleOrder.created_at <$> mockSaleOrders (markOrderAsPaid 1 Scenario.s1).2
    = ["2024-01-01T10:00:00.000Z"]
  ∧ SaleOrder.created_at
      <$> mockSaleOrders (updateSaleOrder 1 Scenario.form Scenario.s1).2
    = ["2024-01-01T10:00:00.000Z"].
Proof.
  destruct (timestamps_on_mutation StillClock.s 1 Scenario.form)
    as (Hcreate & _).
  destruct (timestamps_on_mutation Scenario.s1 1 Scenario.form)
    as (_ & Hupdate & Hpay).
  split; [|split].
  - eexists. split; [reflexivity|].
    destruct (Hcreate _ _ (surjective_pairing
                             (createSaleOrder Scenario.form StillClock.s)))
      as (_ & _ & Hsame & _).
    apply Hsame. reflexivity.
  - destruct (Hpay _ _ (surjective_pairing (markOrderAsPaid 1 Scenario.s1)))
      as (_ & _ & ->).
    reflexivity.
  - destruct (Hupdate _ _ (surjective_pairing
                             (updateSaleOrder 1 Scenario.form Scenario.s1)))
      as (_ & _ & ->).
    reflexivity.
Defined.

(** ** Customers *)

Lemma Array_find_cons {A} (P : A → Prop) `{∀ x, Decision (P x)}
    (x : A) (xs : list A) :
  Array_find P (x :: xs) = if decide (P x) then Some x else Array_find P xs.
Proof.
  unfold Array_find. cbn. destruct (decide (P x)); [done|].
  by destruct (list_find P xs) as [[j y]|].
Qed.

Lemma find_customer_first (s : State) (customer_id : Z) (k : nat)
    (c : Customer.t) :
  mockCustomers s !! k = Some c →
  CustomerProfile.id (Customer.customer_profile c) = customer_id →
  (∀ j c', (j < k)%nat → mockCustomers s !! j = Some c' →
     CustomerProfile.id (Customer.customer_profile c') ≠ customer_id) →
  find_customer s customer_id = Some c.
Proof.
  intros Hk Hid Hleast. unfold find_customer, Array_find.
  apply fmap_Some. exists (k, c). split; [|done].
  apply list_find_Some. split; [done|]. split; [done|].
  intros j c' Hj Hlt. by apply (Hleast j c').
Qed.

(** The customer found, as far as its profile goes, depends on the profiles
    of the customers only. *)
Lemma find_customer_by_profiles (customers customers' : list Customer.t)
    (customer_id : Z) :
  Customer.customer_profile <$> customers'
  = Customer.customer_profile <$> customers →
  Customer.customer_profile <$> Array_find (is_customer customer_id) customers'
  = Customer.customer_profile <$> Array_find (is_customer customer_id) customers.
Proof.
  revert customers'.
  induction customers as [|c customers IH]; intros [|c' customers'];
    try done.
  rewrite !fmap_cons. intros [= Hc Hrest]. rewrite !Array_find_cons.
  destruct (decide (is_customer customer_id c')) as [Hc'|Hc'],
           (decide (is_customer customer_id c)) as [Hid|Hid];
    unfold is_customer in Hc', Hid.
  - cbn. by rewrite Hc.
  - by rewrite Hc in Hc'.
  - by rewrite Hc in Hc'.
  - by apply IH.
Qed.

(** C10. The [customer_id] of a form is looked up among the profile ids
    ([customer_profile.id]) of the customers.  When some customer's profile
    id is the [customer_id], [createSaleOrder] succeeds (and
    [updateSaleOrder] too, if the order exists), and the order's
    [customer_name] is the profile name of the first such customer; when no
    profile id is the [customer_id] the operation throws "Customer not
    found".  The [id] and [customer] fields of the customer records play no
    part: with other customer records carrying the same profiles the
    operations return the same. *)
Theorem customer_found_by_profile_id (s : State) (id : Z)
    (orderData : SaleOrderFormData.t) :
  let customer_id := SaleOrderFormData.customer_id orderData in
  let profile_id c := CustomerProfile.id (Customer.customer_profile c) in
  let first_match (c : Customer.t) :=
    ∃ k, mockCustomers s !! k = Some c
         ∧ profile_id c = customer_id
         ∧ ∀ j c', (j < k)%nat → mockCustomers s !! j = Some c' →
                   profile_id c' ≠ customer_id in
  (∀ o s', createSaleOrder orderData s = (Ok o, s') →
     SaleOrder.customer_id o = customer_id
     ∧ ∃ c, first_match c
            ∧ SaleOrder.customer_name o
              = CustomerProfile.name (Customer.customer_profile c))
  ∧ (∀ o s', updateSaleOrder id orderData s = (Ok o, s') →
     SaleOrder.customer_id o = customer_id
     ∧ ∃ c, first_match c
            ∧ SaleOrder.customer_name o
              = CustomerProfile.name (Customer.customer_profile c))
  ∧ ((∀ c, c ∈ mockCustomers s → profile_id c ≠ customer_id) →
     (createSaleOrder orderData s).1 = Throw CustomerNotFound
     ∧ (is_Some (list_find (is_order id) (mockSaleOrders s)) →
        (updateSaleOrder id orderData s).1 = Throw CustomerNotFound))
  ∧ ((∃ c, c ∈ mockCustomers s ∧ profile_id c = customer_id) →
     ∃ c, first_match c)
  ∧ (∀ c, first_match c →
     (∃ o s', createSaleOrder orderData s = (Ok o, s')
              ∧ SaleOrder.customer_id o = customer_id
              ∧ SaleOrder.customer_name o
                = CustomerProfile.name (Customer.customer_profile c))
     ∧ (is_Some (list_find (is_order id) (mockSaleOrders s)) →
        ∃ o s', updateSaleOrder id orderData s = (Ok o, s')
                ∧ SaleOrder.customer_id o = customer_id
                ∧ SaleOrder.customer_name o
                  = CustomerProfile.name (Customer.customer_profile c)))
  ∧ (∀ customers',
       Customer.customer_profile <$> customers'
       = Customer.customer_profile <$> mockCustomers s →
       let s' := mkState customers' (mockProducts s) (mockSaleOrders s)
                   (clock s) in
       (createSaleOrder orderData s').1 = (createSaleOrder orderData s).1
       ∧ (updateSaleOrder id orderData s').1
         = (updateSaleOrder id orderData s).1).
Proof.
  intros customer_id profile_id first_match.
  assert (Hfirst : ∀ c, find_customer s customer_id = Some c → first_match c).
  { unfold find_customer, Array_find. intros c Hc.
    apply fmap_Some in Hc as ([k c'] & Hfind & ->).
    apply list_find_Some in Hfind as (Hk & Hid & Hleast).
    exists k. split; [done|]. split; [done|].
    intros j c'' Hlt Hj. by apply (Hleast j c''). }
  split; [|split; [|split; [|split; [|split]]]].
  - intros o s' (c & Hc & -> & _)%createSaleOrder_Ok.
    split; [done|]. exists c. split; [by apply Hfirst | done].
  - intros o s' (i & old & c & _ & Hc & -> & _)%updateSaleOrder_Ok.
    split; [done|]. exists c. split; [by apply Hfirst | done].
  - intros Hnone%find_customer_None.
    rewrite createSaleOrder_run, updateSaleOrder_run.
    fold customer_id. rewrite Hnone. split; [done|].
    by intros [[i old] ->].
  - intros (c & Hin & Hid).
    destruct (list_find_elem_of (is_customer customer_id) (mockCustomers s) c)
      as [[k c'] Hfind]; [done | done |].
    exists c'. apply Hfirst. unfold find_customer, Array_find.
    by rewrite Hfind.
  - intros c (k & Hk & Hid & Hleast).
    pose proof (find_customer_first s customer_id k c Hk Hid Hleast) as Hfind.
    rewrite createSaleOrder_run, updateSaleOrder_run.
    fold customer_id. rewrite Hfind. split.
    + by eexists _, _.
    + intros [[i old] ->]. by eexists _, _.
  - intros customers' Hprofiles s'.
    pose proof (find_customer_by_profiles (mockCustomers s) customers'
                  customer_id Hprofiles) as Hsame.
    rewrite !createSaleOrder_run, !updateSaleOrder_run.
    fold customer_id. unfold find_customer.
    change (mockCustomers s') with customers'.
    change (mockSaleOrders s') with (mockSaleOrders s).
    destruct (Array_find _ customers') as [c'|],
             (Array_find _ (mockCustomers s)) as [c|];
      cbn in Hsame; try done.
    + injection Hsame as Hsame.
      assert (created_order s' orderData c' = created_order s orderData c)
        as Hcreated.
      { unfold created_order. by rewrite Hsame. }
      split.
      * cbn [fst]. by rewrite Hcreated.
      * destruct (list_find _ _) as [[i old]|]; [|done].
        cbn [fst]. unfold updated_order. by rewrite Hsame.
    + split; [done|]. by destruct (list_find _ _) as [[i old]|].
Qed.

Lemma customer_found_by_profile_id_witness :
  Customer.id Scenario.customer = SaleOrderFormData.customer_id Failing.form
  ∧ Scenario.customer ∈ mockCustomers Scenario.s1
  ∧ (createSaleOrder Failing.form Scenario.s1).1 = Throw CustomerNotFound
  ∧ (updateSaleOrder 1 Failing.form Scenario.s1).1 = Throw CustomerNotFound
  ∧ Customer.id Scenario.customer
    ≠ SaleOrderFormData.customer_id Scenario.form
  ∧ (∃ o s', createSaleOrder Scenario.form Scenario.s1 = (Ok o, s')
             ∧ SaleOrder.customer_name o = "Asha Traders")
  ∧ (∃ o s', updateSaleOrder 1 Scenario.form Scenario.s1 = (Ok o, s')
             ∧ SaleOrder.customer_name o = "Asha Traders").
Proof.
  destruct (customer_found_by_profile_id Scenario.s1 1 Failing.form)
    as (_ & _ & Hfail & _).
  destruct (customer_found_by_profile_id Scenario.s1 1 Scenario.form)
    as (_ & _ & _ & _ & Hfound & _).
  split; [reflexivity|]. split; [by left|].
  destruct Hfail as (Hc & Hu).
  { intros c ->%list_elem_of_singleton. discriminate. }
  split; [exact Hc|]. split; [apply Hu; by eexists|].
  split; [discriminate|].
  destruct (Hfound Scenario.customer) as (Hcreate & Hupdate).
  { exists 0%nat. split; [reflexivity|]. split; [reflexivity|].
    intros j c' Hlt. lia. }
  split.
  - destruct Hcreate as (o & s' & Hrun & _ & Hname).
    exists o, s'. split; [exact Hrun | exact Hname].
  - destruct Hupdate as (o & s' & Hrun & _ & Hname); [by eexists|].
    exists o, s'. split; [exact Hrun | exact Hname].
Defined.


(** * Beyond the order operations: the rest of [api] and its callers *)

(** ** [api.login], [api.getCustomers], [api.getProducts] *)

Module User.
Record t := mk {
  username : string;
  password : string
}.
End User.

Definition InvalidCredentials : Exception := Error "Invalid credentials".

(** [user.username === username && user.password === password] *)
Definition has_credentials (username password : string) (user : User.t)
    : Prop :=
  User.username user = username ∧ User.password user = password.
Global Instance has_credentials_dec username password user :
  Decision (has_credentials username password user).
Proof. unfold has_credentials. apply _. Defined.

(** [api.login]; the array [mockUsers] is read and never written, so it is
    an argument and not a field of the state. *)
Definition login (mockUsers : list User.t) (username password : string)
    : M User.t :=
  match Array_find (has_credentials username password) mockUsers with
  | None => throw InvalidCredentials
  | Some user => mret user
  end.

(** [return [...mockCustomers]] and [return [...mockProducts]] *)
Definition getCustomers : M (list Customer.t) := gets mockCustomers.
Definition getProducts : M (list Product.t) := gets mockProducts.

(** The other status. *)
Definition other_status (status : OrderStatus) : OrderStatus :=
  match status with active => completed | completed => active end.

(** The list an order with this [paid] flag is shown in. *)
Definition status_of (paid : bool) : OrderStatus :=
  if paid then completed else active.

(** The same form with other items. *)
Definition with_items (items : list OrderItem.t)
    (orderData : SaleOrderFormData.t) : SaleOrderFormData.t :=
  SaleOrderFormData.mk (SaleOrderFormData.customer_id orderData) items
    (SaleOrderFormData.paid orderData) (SaleOrderFormData.invoice_no orderData)
    (SaleOrderFormData.invoice_date orderData).

Module Users.

Definition admin : User.t := User.mk "admin" "secret".
Definition clerk : User.t := User.mk "clerk" "pass123".
Definition all : list User.t := [admin; clerk].

End Users.

(** X1. [login] never touches the store.  It throws "Invalid credentials",
    and nothing else, exactly when no user has both the given name and the
    given password; otherwise it returns the first user that has both. *)
Theorem login_needs_both_fields (mockUsers : list User.t)
    (username password : string) (s : State) :
  (login mockUsers username password s).2 = s
  ∧ ((login mockUsers username password s).1 = Throw InvalidCredentials
     ↔ ∀ user, user ∈ mockUsers →
         ¬ (User.username user = username ∧ User.password user = password))
  ∧ (∀ user, (login mockUsers username password s).1 = Ok user →
       ∃ k, mockUsers !! k = Some user
            ∧ User.username user = username
            ∧ User.password user = password
            ∧ ∀ j other, (j < k)%nat → mockUsers !! j = Some other →
                ¬ (User.username other = username
                   ∧ User.password other = password))
  ∧ (∀ e, (login mockUsers username password s).1 = Throw e →
       e = InvalidCredentials).
Proof.
  unfold login, Array_find.
  destruct (list_find _ mockUsers) as [[k user]|] eqn:Hfind; cbn.
  - apply list_find_Some in Hfind as (Hk & (Hname & Hpass) & Hleast).
    split; [done|]. split; [|split; [|done]].
    + split; [done|]. intros Hnone. destruct (Hnone user); [|done].
      by eapply list_elem_of_lookup_2.
    + intros user' [= <-]. exists k. do 3 (split; [done|]).
      intros j other Hlt Hj. by apply (Hleast j other).
  - apply list_find_None in Hfind. rewrite Forall_forall in Hfind.
    split; [done|]. split; [|split; [done|]].
    + split; [|done]. intros _ user Hin. by apply Hfind.
    + by intros e [= <-].
Qed.

Lemma login_needs_both_fields_witness :
  (login Users.all "clerk" "pass123" Scenario.s0).1 = Ok Users.clerk
  ∧ (login Users.all "clerk" "secret" Scenario.s0).1 = Throw InvalidCredentials
  ∧ (login Users.all "Clerk" "pass123" Scenario.s0).1
    = Throw InvalidCredentials.
Proof.
  destruct (login_needs_both_fields Users.all "clerk" "secret" Scenario.s0)
    as (_ & Hwrong & _).
  split; [reflexivity|]. split; [|reflexivity].
  apply Hwrong. intros user Hin [Hname Hpass].
  apply elem_of_cons in Hin as [->|Hin]; [discriminate Hname|].
  apply list_elem_of_singleton in Hin as ->. discriminate Hpass.
Defined.

Lemma run_customers_unchanged (s : State) (id : Z)
    (orderData : SaleOrderFormData.t) :
  mockCustomers (createSaleOrder orderData s).2 = mockCustomers s
  ∧ mockCustomers (updateSaleOrder id orderData s).2 = mockCustomers s
  ∧ mockCustomers (markOrderAsPaid id s).2 = mockCustomers s.
Proof.
  rewrite createSaleOrder_run, updateSaleOrder_run, markOrderAsPaid_run.
  destruct (list_find _ _) as [[orderIndex order]|];
    destruct (find_customer _ _) as [customer|]; done.
Qed.

(** X2. The reads change nothing, and what [getCustomers] returns is the
    same before and after any [createSaleOrder], [updateSaleOrder] or
    [markOrderAsPaid], failed or not.  What [getProducts] returns is the same
    after an update or a mark-paid; after a successful create it is the same
    catalog up to inventory quantities: same products, same SKUs, same
    prices. *)
Theorem reads_follow_the_store (s : State) (id : Z)
    (orderData : SaleOrderFormData.t) :
  getCustomers s = (Ok (mockCustomers s), s)
  ∧ getProducts s = (Ok (mockProducts s), s)
  ∧ (getCustomers (createSaleOrder orderData s).2).1 = (getCustomers s).1
  ∧ (getCustomers (updateSaleOrder id orderData s).2).1 = (getCustomers s).1
  ∧ (getCustomers (markOrderAsPaid id s).2).1 = (getCustomers s).1
  ∧ (getProducts (updateSaleOrder id orderData s).2).1 = (getProducts s).1
  ∧ (getProducts (markOrderAsPaid id s).2).1 = (getProducts s).1
  ∧ ∃ before after,
      (getProducts s).1 = Ok before
      ∧ (getProducts (createSaleOrder orderData s).2).1 = Ok after
      ∧ without_inventory after = without_inventory before
      ∧ length after = length before.
Proof.
  destruct (run_customers_unchanged s id orderData) as (Hc & Hu & Hm).
  unfold getCustomers, getProducts, gets. cbn.
  rewrite Hc, Hu, Hm. do 5 (split; [done|]).
  rewrite createSaleOrder_run, updateSaleOrder_run, markOrderAsPaid_run.
  split; [|split].
  - destruct (list_find _ _) as [[orderIndex order]|]; [|done].
    by destruct (find_customer _ _).
  - by destruct (list_find _ _) as [[orderIndex order]|].
  - eexists _, _. split; [done|]. split; [done|].
    destruct (find_customer _ _) as [customer|]; [|done]. cbn.
    pose proof (without_inventory_inventory_after
                  (SaleOrderFormData.items orderData) (mockProducts s)) as Hw.
    split; [done|].
    apply (f_equal length) in Hw. unfold without_inventory in Hw.
    by rewrite !length_fmap in Hw.
Qed.

(** X3. No operation removes or renumbers an order: the identifiers in the
    store, in store order, are after [updateSaleOrder] and [markOrderAsPaid]
    what they were, and after [createSaleOrder] what they were followed by
    the new identifier (by nothing when it throws).  So an identifier that is
    found once is found ever after. *)
Theorem orders_are_never_removed (s : State) (id : Z)
    (orderData : SaleOrderFormData.t) :
  let ids (s : State) := SaleOrder.id <$> mockSaleOrders s in
  ids (createSaleOrder orderData s).2
  = ids s ++ match (createSaleOrder orderData s).1 with
             | Ok o => [SaleOrder.id o]
             | Throw _ => []
             end
  ∧ ids (updateSaleOrder id orderData s).2 = ids s
  ∧ ids (markOrderAsPaid id s).2 = ids s
  ∧ ∀ wanted, is_Some (list_find (is_order wanted) (mockSaleOrders s)) →
      is_Some (list_find (is_order wanted)
                 (mockSaleOrders (createSaleOrder orderData s).2))
      ∧ is_Some (list_find (is_order wanted)
                   (mockSaleOrders (updateSaleOrder id orderData s).2))
      ∧ is_Some (list_find (is_order wanted)
                   (mockSaleOrders (markOrderAsPaid id s).2)).
Proof.
  intros ids.
  assert (Hcreate : ids (createSaleOrder orderData s).2
                    = ids s ++ match (createSaleOrder orderData s).1 with
                               | Ok o => [SaleOrder.id o]
                               | Throw _ => []
                               end).
  { rewrite createSaleOrder_run.
    destruct (find_customer _ _) as [customer|]; cbn.
    - unfold ids. cbn. by rewrite fmap_app.
    - by rewrite app_nil_r. }
  assert (Hupdate : ids (updateSaleOrder id orderData s).2 = ids s).
  { rewrite updateSaleOrder_run.
    destruct (list_find _ _) as [[i old]|] eqn:Hfind; [|done].
    apply list_find_Some in Hfind as (Hi & _).
    destruct (find_customer _ _) as [customer|]; [|done].
    unfold ids. cbn. by apply (replace_keeps_field SaleOrder.id _ i old). }
  assert (Hpay : ids (markOrderAsPaid id s).2 = ids s).
  { rewrite markOrderAsPaid_run.
    destruct (list_find _ _) as [[i old]|] eqn:Hfind; [|done].
    apply list_find_Some in Hfind as (Hi & _).
    unfold ids. cbn. by apply (replace_keeps_field SaleOrder.id _ i old). }
  do 3 (split; [done|]).
  assert (Hfound : ∀ wanted orders orders',
            (∀ x, x ∈ SaleOrder.id <$> orders → x ∈ SaleOrder.id <$> orders') →
            is_Some (list_find (is_order wanted) orders) →
            is_Some (list_find (is_order wanted) orders')).
  { intros wanted orders orders' Hsub [[i o] Hfind].
    apply list_find_Some in Hfind as (Hi & Hid & _).
    assert (Hin : wanted ∈ SaleOrder.id <$> orders').
    { apply Hsub, list_elem_of_fmap. exists o. split; [done|].
      by eapply list_elem_of_lookup_2. }
    apply list_elem_of_fmap in Hin as (o' & Hid' & Hin).
    by eapply (list_find_elem_of (is_order wanted)). }
  intros wanted Hsome. split; [|split]; eapply Hfound; try exact Hsome.
  - fold (ids s) (ids (createSaleOrder orderData s).2). rewrite Hcreate.
    intros x Hx. apply elem_of_app. by left.
  - fold (ids s) (ids (updateSaleOrder id orderData s).2). by rewrite Hupdate.
  - fold (ids s) (ids (markOrderAsPaid id s).2). by rewrite Hpay.
Qed.

Lemma orders_are_never_removed_witness :
  SaleOrder.id <$> mockSaleOrders (createSaleOrder Scenario.form Scenario.s1).2
  = [1; 2]
  ∧ is_Some (list_find (is_order 1)
               (mockSaleOrders (markOrderAsPaid 1 Scenario.s1).2)).
Proof.
  destruct (orders_are_never_removed Scenario.s1 1 Scenario.form)
    as (Hcreate & _ & _ & Hfound).
  split.
  - rewrite Hcreate. reflexivity.
  - apply (Hfound 1). by eexists.
Defined.

(** ** Reading the lists after a write *)

Lemma listOrders_elem_of (getTime : string → Z) (status : OrderStatus)
    (orders : list SaleOrder.t) (x : SaleOrder.t) :
  x ∈ listOrders getTime status orders
  ↔ x ∈ orders ∧ has_status status x = true.
Proof.
  unfold listOrders.
  rewrite (Array_sort_perm (λ o, getTime (SaleOrder.last_modified o))).
  rewrite list_elem_of_filter. tauto.
Qed.

Lemma listOrders_length (getTime : string → Z) (status : OrderStatus)
    (orders : list SaleOrder.t) :
  length (listOrders getTime status orders)
  = length (filter (λ o, has_status status o = true) orders).
Proof.
  unfold listOrders.
  by rewrite (Array_sort_perm (λ o, getTime (SaleOrder.last_modified o))).
Qed.

Lemma has_status_status_of (o : SaleOrder.t) :
  has_status (status_of (SaleOrder.paid o)) o = true
  ∧ has_status (other_status (status_of (SaleOrder.paid o))) o = false.
Proof. unfold has_status, status_of. by destruct (SaleOrder.paid o). Qed.

(** The first row of a list is an order that no other row is newer than. *)
Lemma listOrders_head_newest (getTime : string → Z) (status : OrderStatus)
    (orders : list SaleOrder.t) (first : SaleOrder.t) :
  head (listOrders getTime status orders) = Some first →
  ∀ x, x ∈ listOrders getTime status orders →
       getTime (SaleOrder.last_modified x)
       ≤ getTime (SaleOrder.last_modified first).
Proof.
  intros Hhead x Hx.
  pose proof (Array_sort_sorted (λ o, getTime (SaleOrder.last_modified o))
                (filter (λ o, has_status status o = true) orders)) as Hsorted.
  apply (@Sorted_StronglySorted _ _
           (desc_transitive (λ o, getTime (SaleOrder.last_modified o))))
    in Hsorted.
  change (Array_sort _ _) with (listOrders getTime status orders) in Hsorted.
  destruct (listOrders getTime status orders) as [|h rest]; [done|].
  injection Hhead as ->.
  apply StronglySorted_cons in Hsorted as [Hall _].
  rewrite Forall_forall in Hall.
  apply elem_of_cons in Hx as [->|Hx]; [lia|]. by apply Hall.
Qed.

(** X4. After a successful [createSaleOrder] the new order is in the list
    of its own status (completed if the form said paid, active otherwise),
    which is one row longer than before, and the list of the other status is
    exactly what it was.  When the new order's [last_modified] is later than
    that of every order stored before, it is the first row. *)
Theorem created_order_is_listed (getTime : string → Z) (s s' : State)
    (orderData : SaleOrderFormData.t) (o : SaleOrder.t) :
  createSaleOrder orderData s = (Ok o, s') →
  let status := status_of (SaleOrderFormData.paid orderData) in
  let time (x : SaleOrder.t) := getTime (SaleOrder.last_modified x) in
  ∃ shown hidden shown_before,
    getSaleOrders getTime status s' = (Ok shown, s')
    ∧ getSaleOrders getTime (other_status status) s' = (Ok hidden, s')
    ∧ getSaleOrders getTime status s = (Ok shown_before, s)
    ∧ getSaleOrders getTime (other_status status) s = (Ok hidden, s)
    ∧ o ∈ shown
    ∧ length shown = S (length shown_before)
    ∧ ((∀ x, x ∈ mockSaleOrders s → time x < time o) → head shown = Some o).
Proof.
  intros (customer & _ & Ho & ->)%createSaleOrder_Ok status time.
  assert (Hpaid : SaleOrder.paid o = SaleOrderFormData.paid orderData)
    by (by rewrite Ho).
  destruct (has_status_status_of o) as [Hin Hout].
  rewrite Hpaid in Hin, Hout. fold status in Hin, Hout.
  eexists _, _, _. rewrite !getSaleOrders_run.
  cbn [after_create mockSaleOrders]. rewrite <- Ho.
  split; [done|]. split; [done|]. split; [done|].
  assert (Hmember : o ∈ listOrders getTime status (mockSaleOrders s ++ [o])).
  { apply listOrders_elem_of. split; [|done].
    apply elem_of_app. right. by left. }
  split; [|split; [done|split]].
  - unfold listOrders. rewrite filter_app, filter_cons_False, filter_nil
      by (by rewrite Hout).
    by rewrite app_nil_r.
  - rewrite !listOrders_length, filter_app, filter_cons_True by done.
    rewrite length_app. cbn. lia.
  - intros Hnewest.
    destruct (listOrders getTime status (mockSaleOrders s ++ [o]))
      as [|first rest] eqn:Hshown; [by inversion Hmember|].
    cbn. f_equal.
    assert (Hfirst : first ∈ listOrders getTime status (mockSaleOrders s ++ [o]))
      by (rewrite Hshown; left).
    apply listOrders_elem_of in Hfirst as [Hfirst _].
    apply elem_of_app in Hfirst as [Hold|Hnew].
    + pose proof (listOrders_head_newest getTime status
                    (mockSaleOrders s ++ [o]) first) as Hle.
      rewrite Hshown in Hle. specialize (Hle eq_refl o).
      specialize (Hle Hmember).
      pose proof (Hnewest first Hold). unfold time in *. lia.
    + by apply list_elem_of_singleton in Hnew.
Qed.

Lemma created_order_is_listed_witness :
  ∃ shown,
    getSaleOrders Listing.millis active
      (createSaleOrder Scenario.form Scenario.s0).2
    = (Ok shown, (createSaleOrder Scenario.form Scenario.s0).2)
    ∧ head shown = Some Scenario.order1.
Proof.
  destruct (created_order_is_listed Listing.millis Scenario.s0
              (createSaleOrder Scenario.form Scenario.s0).2
              Scenario.form Scenario.order1 eq_refl)
    as (shown & hidden & shown_before & Hrun & _ & _ & _ & _ & _ & Hhead).
  exists shown. split; [exact Hrun|].
  apply Hhead. intros x Hx. destruct (not_elem_of_nil x Hx).
Defined.

Lemma elem_of_replace (orders : list SaleOrder.t) (i : nat)
    (old new x : SaleOrder.t) :
  orders !! i = Some old →
  NoDup (SaleOrder.id <$> orders) →
  x ∈ <[i := new]> orders
  ↔ x = new ∨ (x ∈ orders ∧ SaleOrder.id x ≠ SaleOrder.id old).
Proof.
  intros Hi Hnodup. split.
  - intros [j Hj]%list_elem_of_lookup.
    apply list_lookup_insert_Some in Hj as [(_ & -> & _)|[Hne Hj]]; [by left|].
    right. split; [by eapply list_elem_of_lookup_2|].
    intros Hsame. destruct Hne.
    apply (NoDup_lookup _ i j (SaleOrder.id old) Hnodup).
    + by rewrite list_lookup_fmap, Hi.
    + rewrite list_lookup_fmap, Hj. cbn. by rewrite Hsame.
  - intros [->|[[j Hj]%list_elem_of_lookup Hne]].
    + apply (list_elem_of_lookup_2 _ i), list_lookup_insert_eq.
      by eapply lookup_lt_Some.
    + apply (list_elem_of_lookup_2 _ j). rewrite list_lookup_insert_ne; [done|].
      intros ->. congruence.
Qed.

Lemma listOrders_replace (getTime : string → Z) (status : OrderStatus)
    (orders : list SaleOrder.t) (i : nat) (old new x : SaleOrder.t) :
  orders !! i = Some old →
  NoDup (SaleOrder.id <$> orders) →
  x ∈ listOrders getTime status (<[i := new]> orders)
  ↔ (x = new ∧ status = status_of (SaleOrder.paid new))
    ∨ (x ∈ listOrders getTime status orders
       ∧ SaleOrder.id x ≠ SaleOrder.id old).
Proof.
  intros Hi Hnodup.
  rewrite !listOrders_elem_of, (elem_of_replace orders i old new) by done.
  assert (Hstatus : has_status status new = true
                    ↔ status = status_of (SaleOrder.paid new)).
  { unfold has_status, status_of.
    destruct status, (SaleOrder.paid new); naive_solver. }
  split.
  - intros [[->|[Hin Hne]] Hst]; [left|right]; tauto.
  - intros [[-> Hst]|[[Hin Hst] Hne]]; [|tauto].
    split; [by left | by apply Hstatus].
Qed.

(** X5. In a store with distinct identifiers, marking a stored order as
    paid puts its paid copy in the completed list and takes the order out of
    the active list; every other order stays in the list it was in. *)
Theorem paid_order_moves_to_completed (getTime : string → Z) (s : State)
    (i : nat) (order : SaleOrder.t) :
  mockSaleOrders s !! i = Some order →
  NoDup (SaleOrder.id <$> mockSaleOrders s) →
  ∃ o s',
    markOrderAsPaid (SaleOrder.id order) s = (Ok o, s')
    ∧ o ∈ listOrders getTime completed (mockSaleOrders s')
    ∧ (∀ x, x ∈ listOrders getTime active (mockSaleOrders s')
            → SaleOrder.id x ≠ SaleOrder.id order)
    ∧ (∀ x, SaleOrder.id x ≠ SaleOrder.id order →
         ∀ status,
           x ∈ listOrders getTime status (mockSaleOrders s')
           ↔ x ∈ listOrders getTime status (mockSaleOrders s)).
Proof.
  intros Hi Hnodup.
  exists (paid_order s order), (after_replace s i (paid_order s order)).
  rewrite markOrderAsPaid_run, (find_order_unique _ i order) by done.
  cbn [after_replace mockSaleOrders].
  split; [done|]. split; [|split].
  - apply (listOrders_replace getTime completed _ i order); [done..|].
    by left.
  - intros x Hx.
    apply (listOrders_replace getTime active _ i order) in Hx; [|done..].
    by destruct Hx as [[_ ?]|[_ ?]].
  - intros x Hne status.
    rewrite (listOrders_replace getTime status _ i order) by done.
    split; [|tauto]. intros [[-> _]|[? _]]; [by destruct Hne | done].
Qed.

Lemma paid_order_moves_to_completed_witness :
  ∃ o s',
    markOrderAsPaid 1 Listing.s = (Ok o, s')
    ∧ o ∈ listOrders Listing.millis completed (mockSaleOrders s')
    ∧ Listing.b ∈ listOrders Listing.millis completed (mockSaleOrders s').
Proof.
  destruct (paid_order_moves_to_completed Listing.millis Listing.s 0 Listing.a)
    as (o & s' & Hrun & Hin & _ & Hothers).
  - reflexivity.
  - repeat constructor; cbn; intros Hin;
      repeat (apply elem_of_cons in Hin as [Hin|Hin]; [discriminate Hin|]);
      by apply not_elem_of_nil in Hin.
  - exists o, s'. split; [exact Hrun|]. split; [exact Hin|].
    apply Hothers; [discriminate|]. by vm_compute; left.
Defined.

(** X6. In a store with distinct identifiers, a successful
    [updateSaleOrder] of a stored order shows the updated order in the list
    that the form's [paid] flag names, whatever the order's flag was before,
    so an update with [paid = false] brings a completed order back to the
    active list.  Every other order stays in the list it was in. *)
Theorem updated_order_follows_form (getTime : string → Z) (s : State)
    (i : nat) (order : SaleOrder.t) (orderData : SaleOrderFormData.t) :
  mockSaleOrders s !! i = Some order →
  NoDup (SaleOrder.id <$> mockSaleOrders s) →
  is_Some (find_customer s (SaleOrderFormData.customer_id orderData)) →
  ∃ o s',
    updateSaleOrder (SaleOrder.id order) orderData s = (Ok o, s')
    ∧ SaleOrder.paid o = SaleOrderFormData.paid orderData
    ∧ o ∈ listOrders getTime (status_of (SaleOrderFormData.paid orderData))
            (mockSaleOrders s')
    ∧ (∀ x, x ∈ listOrders getTime
                  (other_status (status_of (SaleOrderFormData.paid orderData)))
                  (mockSaleOrders s')
            → SaleOrder.id x ≠ SaleOrder.id order)
    ∧ (∀ x, SaleOrder.id x ≠ SaleOrder.id order →
         ∀ status,
           x ∈ listOrders getTime status (mockSaleOrders s')
           ↔ x ∈ listOrders getTime status (mockSaleOrders s)).
Proof.
  intros Hi Hnodup [customer Hcustomer].
  exists (updated_order s orderData order customer),
         (after_replace s i (updated_order s orderData order customer)).
  rewrite updateSaleOrder_run, (find_order_unique _ i order), Hcustomer by done.
  cbn [after_replace mockSaleOrders].
  split; [done|]. split; [done|]. split; [|split].
  - apply (listOrders_replace getTime _ _ i order); [done..|]. by left.
  - intros x Hx.
    apply (listOrders_replace getTime _ _ i order) in Hx; [|done..].
    destruct Hx as [[_ Hst]|[_ ?]]; [|done].
    cbn in Hst. by destruct (SaleOrderFormData.paid orderData).
  - intros x Hne status.
    rewrite (listOrders_replace getTime status _ i order) by done.
    split; [|tauto]. intros [[-> _]|[? _]]; [by destruct Hne | done].
Qed.

Lemma updated_order_follows_form_witness :
  ∃ o s',
    updateSaleOrder 2 Scenario.form Listing.s = (Ok o, s')
    ∧ SaleOrder.paid Listing.b = true
    ∧ o ∈ listOrders Listing.millis active (mockSaleOrders s').
Proof.
  destruct (updated_order_follows_form Listing.millis Listing.s 1 Listing.b
              Scenario.form)
    as (o & s' & Hrun & _ & Hin & _).
  - reflexivity.
  - repeat constructor; cbn; intros Hin;
      repeat (apply elem_of_cons in Hin as [Hin|Hin]; [discriminate Hin|]);
      by apply not_elem_of_nil in Hin.
  - by exists Scenario.customer.
  - exists o, s'. split; [exact Hrun|]. split; [reflexivity | exact Hin].
Defined.

(** ** What the inventory update depends on *)

(** A catalog is its inventory-free part together with its SKUs. *)
Lemma products_ext (ps1 ps2 : list Product.t) :
  without_inventory ps1 = without_inventory ps2 →
  (∀ i j, sku_at ps1 i j = sku_at ps2 i j) →
  ps1 = ps2.
Proof.
  intros Hw Hs. apply list_eq. intros i.
  apply (f_equal (.!! i)) in Hw. unfold without_inventory in Hw.
  rewrite !list_lookup_fmap in Hw. specialize (Hs i). unfold sku_at in Hs.
  destruct (ps1 !! i) as [p1|], (ps2 !! i) as [p2|]; try done.
  cbn in Hw, Hs. f_equal. destruct p1, p2. cbn in *.
  injection Hw as -> -> -> -> -> -> -> -> _ -> ->.
  f_equal. by apply list_eq.
Qed.

Lemma inventory_after_by_totals (items items' : list OrderItem.t)
    (products : list Product.t) :
  (∀ sku_id, ordered sku_id items = ordered sku_id items') →
  inventory_after items products = inventory_after items' products.
Proof.
  intros Hsame. apply products_ext.
  - by rewrite !without_inventory_inventory_after.
  - intros i j. rewrite !sku_at_inventory_after.
    destruct (sku_at products i j) as [sku|]; [|done].
    cbn. by rewrite Hsame.
Qed.

Lemma ordered_perm (sku_id : Z) (items items' : list OrderItem.t) :
  items ≡ₚ items' → ordered sku_id items = ordered sku_id items'.
Proof.
  induction 1 as [|item items items' _ IH|a b items|? ? ? _ IH1 _ IH2].
  - done.
  - by rewrite !ordered_cons, IH.
  - rewrite !ordered_cons. lia.
  - by rewrite IH1.
Qed.

Lemma ordered_nonneg (sku_id : Z) (items : list OrderItem.t) :
  Forall (λ item, 0 ≤ OrderItem.quantity item) items →
  0 ≤ ordered sku_id items.
Proof.
  induction 1 as [|item items Hq _ IH]; [done|].
  rewrite ordered_cons. destruct (decide _); lia.
Qed.

(** X7. The catalog that [createSaleOrder] leaves depends on the items
    only through the quantity ordered per [sku_id]: two item lists that order
    the same quantity of every SKU (one line of 3, or three lines of 1) leave
    the same catalog. *)
Theorem inventory_depends_on_quantity_per_sku (s : State)
    (orderData : SaleOrderFormData.t) (items' : list OrderItem.t) :
  (∀ sku_id, ordered sku_id (SaleOrderFormData.items orderData)
             = ordered sku_id items') →
  mockProducts (createSaleOrder (with_items items' orderData) s).2
  = mockProducts (createSaleOrder orderData s).2.
Proof.
  intros Hsame. rewrite !createSaleOrder_run. cbn [with_items
    SaleOrderFormData.customer_id].
  destruct (find_customer _ _) as [customer|]; [|done].
  cbn. symmetry. by apply inventory_after_by_totals.
Qed.

Lemma inventory_depends_on_quantity_per_sku_witness :
  mockProducts
    (createSaleOrder
       (with_items [OrderItem.mk 10 100 1 None; OrderItem.mk 10 90 2 None]
          Scenario.form) Scenario.s0).2
  = mockProducts Scenario.s1.
Proof.
  rewrite (inventory_depends_on_quantity_per_sku Scenario.s0 Scenario.form).
  - reflexivity.
  - intros sku_id. unfold ordered.
    change (SaleOrderFormData.items Scenario.form)
      with [OrderItem.mk 10 100 3 None].
    rewrite !filter_cons, !filter_nil. cbn [OrderItem.sku_id].
    by destruct (decide (10 = sku_id)).
Defined.

(** X8. Rearranging the lines of a form changes neither what
    [createSaleOrder] does to the catalog nor the identifier and the
    customer of the order it returns, and the stored items are the same
    items rearranged.  (The [total_price] is not part of this: the doubles
    are added in the order of the lines.) *)
Theorem line_order_leaves_catalog_and_id (s : State)
    (orderData : SaleOrderFormData.t) (items' : list OrderItem.t) :
  SaleOrderFormData.items orderData ≡ₚ items' →
  mockProducts (createSaleOrder (with_items items' orderData) s).2
  = mockProducts (createSaleOrder orderData s).2
  ∧ ∀ o, (createSaleOrder orderData s).1 = Ok o →
      ∃ o', (createSaleOrder (with_items items' orderData) s).1 = Ok o'
            ∧ SaleOrder.id o' = SaleOrder.id o
            ∧ SaleOrder.customer_name o' = SaleOrder.customer_name o
            ∧ SaleOrder.items o ≡ₚ SaleOrder.items o'.
Proof.
  intros Hperm. rewrite !createSaleOrder_run. cbn [with_items
    SaleOrderFormData.customer_id].
  destruct (find_customer _ _) as [customer|]; [|done]. cbn. split.
  - symmetry. apply inventory_after_by_totals. intros sku_id.
    by apply ordered_perm.
  - intros o [= <-]. eexists. split; [done|]. cbn.
    split; [done|]. split; [done|]. by apply fmap_Permutation.
Qed.

Lemma line_order_leaves_catalog_and_id_witness :
  mockProducts (createSaleOrder (with_items (reverse Decimal.items)
                                   Decimal.form) Scenario.s0).2
  = mockProducts (createSaleOrder Decimal.form Scenario.s0).2
  ∧ ∃ o', (createSaleOrder (with_items (reverse Decimal.items) Decimal.form)
             Scenario.s0).1 = Ok o'
          ∧ SaleOrder.id o' = 1.
Proof.
  destruct (line_order_leaves_catalog_and_id Scenario.s0 Decimal.form
              (reverse Decimal.items))
    as (Hcatalog & Hsame).
  - symmetry. apply reverse_Permutation.
  - split; [exact Hcatalog|].
    destruct (Hsame _ eq_refl) as (o' & Hrun & Hid & _).
    exists o'. split; [exact Hrun | exact Hid].
Defined.

(** X9. When no item has a negative quantity, a successful
    [createSaleOrder] makes no SKU's inventory quantity grow, and the SKU
    that the lookup of an item's [sku_id] arrives at shrinks by that item's
    quantity at least; the stock is not checked, so the quantity can go
    below zero. *)
Theorem inventory_never_grows (s s' : State)
    (orderData : SaleOrderFormData.t) (o : SaleOrder.t) :
  createSaleOrder orderData s = (Ok o, s') →
  Forall (λ item, 0 ≤ OrderItem.quantity item)
         (SaleOrderFormData.items orderData) →
  (∀ i j sku, sku_at (mockProducts s) i j = Some sku →
     ∃ sku', sku_at (mockProducts s') i j = Some sku'
             ∧ SKU.quantity_in_inventory sku' ≤ SKU.quantity_in_inventory sku)
  ∧ (∀ item i j sku,
       item ∈ SaleOrderFormData.items orderData →
       locate (mockProducts s) (OrderItem.sku_id item) = Some (i, j) →
       sku_at (mockProducts s) i j = Some sku →
       ∃ sku', sku_at (mockProducts s') i j = Some sku'
               ∧ SKU.quantity_in_inventory sku'
                 ≤ SKU.quantity_in_inventory sku - OrderItem.quantity item).
Proof.
  intros (customer & _ & _ & ->)%createSaleOrder_Ok Hquantities.
  cbn [after_create mockProducts]. split.
  - intros i j sku Hat. rewrite sku_at_inventory_after, Hat. cbn.
    eexists. split; [done|]. cbn.
    pose proof (ordered_nonneg (SKU.id sku) _ Hquantities).
    destruct (decide _); lia.
  - intros item i j sku Hin Hloc Hat.
    rewrite sku_at_inventory_after, Hat. cbn.
    eexists. split; [done|]. cbn.
    apply locate_Some in Hloc as Hid. destruct Hid as (sku0 & Hat0 & Hid).
    assert (sku0 = sku) as -> by congruence.
    rewrite Hid, Hloc, decide_True by done.
    assert (OrderItem.quantity item
            ≤ ordered (OrderItem.sku_id item)
                (SaleOrderFormData.items orderData)); [|lia].
    clear -Hin Hquantities.
    induction Hquantities as [|item' items Hq Hall IH]; [by inversion Hin|].
    rewrite ordered_cons. pose proof (ordered_nonneg (OrderItem.sku_id item) _ Hall).
    apply elem_of_cons in Hin as [->|Hin].
    + rewrite decide_True by done. lia.
    + specialize (IH Hin). destruct (decide _); lia.
Qed.

Lemma inventory_never_grows_witness :
  ∃ sku', sku_at (mockProducts
                    (createSaleOrder
                       (with_items [OrderItem.mk 10 100 60 None] Scenario.form)
                       Scenario.s0).2) 0 0 = Some sku'
          ∧ SKU.quantity_in_inventory sku' ≤ 50 - 60.
Proof.
  destruct (inventory_never_grows Scenario.s0 _
              (with_items [OrderItem.mk 10 100 60 None] Scenario.form) _
              (surjective_pairing _))
    as (_ & Hshrinks).
  - by repeat constructor.
  - apply (Hshrinks (OrderItem.mk 10 100 60 None) 0%nat 0%nat
             Scenario.widget_sku); [by left | reflexivity..].
Defined.

(** * [OrderForm] ([src/components/OrderForm.tsx]) *)

(** [getProductNameBySKUId]: the [for] loop over [products]. *)
Fixpoint getProductNameBySKUId (products : list Product.t) (skuId : Z)
    : string :=
  match products with
  | [] => "Unknown Product"
  | product :: rest =>
      match Array_find (λ s, SKU.id s = skuId) (Product.sku product) with
      | Some _ => Product.name product
      | None => getProductNameBySKUId rest skuId
      end
  end.

Module SKUDetails.
Record t := mk {
  productName : string;
  sku : SKU.t
}.
End SKUDetails.

(** [getSKUDetails]; [None] is [null]. *)
Fixpoint getSKUDetails (products : list Product.t) (skuId : Z)
    : option SKUDetails.t :=
  match products with
  | [] => None
  | product :: rest =>
      match Array_find (λ s, SKU.id s = skuId) (Product.sku product) with
      | Some sku => Some (SKUDetails.mk (Product.name product) sku)
      | None => getSKUDetails rest skuId
      end
  end.

(** The state of the component that [handleAddItem] works on: the product
    picked in the selector ([number | null]) and the rows of the field
    array. *)
Record OrderFormState := mkOrderFormState {
  selectedProduct : option Z;
  fields : list OrderItem.t
}.

(** [handleProductChange] *)
Definition handleProductChange (productId : Z) (st : OrderFormState)
    : OrderFormState :=
  mkOrderFormState (Some productId) (fields st).

(** [handleAddItem]; [!selectedProduct] holds for [null] and for 0. *)
Definition handleAddItem (products : list Product.t) (st : OrderFormState)
    : OrderFormState :=
  match selectedProduct st with
  | None => st
  | Some selected =>
      if decide (selected = 0) then st
      else
        match Array_find (λ p, Product.id p = selected) products with
        | None => st
        | Some product =>
            match Product.sku product with
            | [] => st
            | sku :: _ =>
                mkOrderFormState None
                  (fields st
                   ++ [OrderItem.mk (SKU.id sku) (SKU.selling_price sku) 1
                         None])
            end
        end
  end.

(** [customers[0]?.customer_profile.id || 0], the customer a new form
    starts with. *)
Definition defaultCustomerId (customers : list Customer.t) : Z :=
  match head customers with
  | Some customer =>
      let id := CustomerProfile.id (Customer.customer_profile customer) in
      if decide (id = 0) then 0 else id
  | None => 0
  end.

Lemma has_sku_find (skuId : Z) (p : Product.t) :
  has_sku skuId p
  ↔ is_Some (Array_find (λ s, SKU.id s = skuId) (Product.sku p)).
Proof.
  unfold has_sku, Array_find. rewrite Exists_exists, fmap_is_Some. split.
  - intros (sku & Hin & Hid).
    by apply (list_find_elem_of (λ s, SKU.id s = skuId) _ sku).
  - intros [[j sku] (Hj & Hid & _)%list_find_Some].
    exists sku. split; [by eapply list_elem_of_lookup_2 | done].
Qed.

Lemma getProductNameBySKUId_find (products : list Product.t) (skuId : Z) :
  getProductNameBySKUId products skuId
  = match Array_find (has_sku skuId) products with
    | Some product => Product.name product
    | None => "Unknown Product"
    end.
Proof.
  induction products as [|p rest IH]; [done|].
  rewrite Array_find_cons. cbn [getProductNameBySKUId].
  destruct (decide (has_sku skuId p)) as [Hhas|Hhas].
  - apply has_sku_find in Hhas as [sku ->]. done.
  - destruct (Array_find _ (Product.sku p)) as [sku|] eqn:Hsku; [|done].
    destruct Hhas. apply has_sku_find. by rewrite Hsku.
Qed.

(** X10. The name a form row shows for a [sku_id]
    ([getProductNameBySKUId]) and the [product_name] the API stores for an
    item with that [sku_id] are the same, except that a product with the
    empty name is shown with the empty name and stored as
    "Unknown Product".  The row shows "Unknown Product" when no product has
    the SKU. *)
Theorem form_name_agrees_with_stored_name (products : list Product.t)
    (item : OrderItem.t) :
  let shown := getProductNameBySKUId products (OrderItem.sku_id item) in
  let stored := OrderItem.product_name (with_product_name products item) in
  (shown ≠ "" → stored = Some shown)
  ∧ (shown = "" → stored = Some "Unknown Product")
  ∧ ((∀ p, p ∈ products → ¬ has_sku (OrderItem.sku_id item) p) →
     shown = "Unknown Product").
Proof.
  intros shown stored. unfold shown, stored, with_product_name.
  rewrite getProductNameBySKUId_find. cbn.
  destruct (Array_find _ products) as [p|] eqn:Hfind; cbn.
  - split; [|split].
    + intros Hne. by rewrite decide_False.
    + intros ->. done.
    + intros Hnone. unfold Array_find in Hfind.
      apply fmap_Some in Hfind as ([k p'] & Hfind & ->).
      apply list_find_Some in Hfind as (Hk & Hhas & _).
      destruct (Hnone p'); [by eapply list_elem_of_lookup_2 | done].
  - done.
Qed.

Lemma form_name_agrees_with_stored_name_witness :
  OrderItem.product_name
    (with_product_name (mockProducts BlankName.s) (OrderItem.mk 10 100 3 None))
  = Some "Widget"
  ∧ getProductNameBySKUId (mockProducts BlankName.s) 20 = ""
  ∧ OrderItem.product_name
      (with_product_name (mockProducts BlankName.s) (OrderItem.mk 20 5 1 None))
    = Some "Unknown Product".
Proof.
  destruct (form_name_agrees_with_stored_name (mockProducts BlankName.s)
              (OrderItem.mk 10 100 3 None)) as (Hshown & _).
  destruct (form_name_agrees_with_stored_name (mockProducts BlankName.s)
              (OrderItem.mk 20 5 1 None)) as (_ & Hblank & _).
  split; [by apply Hshown|]. split; [reflexivity|]. by apply Hblank.
Defined.

Lemma list_find_cons {A} (P : A → Prop) `{∀ x, Decision (P x)}
    (x : A) (xs : list A) :
  list_find P (x :: xs)
  = if decide (P x) then Some (0%nat, x) else prod_map S id <$> list_find P xs.
Proof. done. Qed.

Lemma getSKUDetails_locate (products : list Product.t) (skuId : Z) :
  match getSKUDetails products skuId with
  | None => locate products skuId = None
  | Some details =>
      ∃ i j p,
        locate products skuId = Some (i, j)
        ∧ products !! i = Some p
        ∧ Product.name p = SKUDetails.productName details
        ∧ Product.sku p !! j = Some (SKUDetails.sku details)
        ∧ SKU.id (SKUDetails.sku details) = skuId
  end.
Proof.
  induction products as [|p rest IH]; [done|].
  cbn [getSKUDetails]. unfold locate. rewrite list_find_cons.
  unfold Array_find.
  destruct (list_find (λ s, SKU.id s = skuId) (Product.sku p))
    as [[j sku]|] eqn:Hsku; cbn.
  - assert (Hhas : has_sku skuId p).
    { apply has_sku_find. unfold Array_find. by rewrite Hsku. }
    rewrite decide_True, Hsku by done.
    apply list_find_Some in Hsku as (Hj & Hid & _).
    by exists 0%nat, j, p.
  - assert (Hhas : ¬ has_sku skuId p).
    { intros [sku' Hsome]%has_sku_find. unfold Array_find in Hsome.
      by rewrite Hsku in Hsome. }
    rewrite decide_False by done.
    fold (locate rest skuId) in IH. unfold locate in IH.
    destruct (getSKUDetails rest skuId) as [details|].
    + destruct IH as (i & j & q & Hloc & Hi & Hname & Hj & Hid).
      exists (S i), j, q.
      destruct (list_find (has_sku skuId) rest) as [[i' q']|]; [|done].
      cbn. destruct (list_find _ (Product.sku q')) as [[j' sku']|]; [|done].
      by injection Hloc as -> ->.
    + destruct (list_find (has_sku skuId) rest) as [[i' q']|]; [|done].
      cbn. by destruct (list_find _ (Product.sku q')) as [[j' sku']|].
Qed.

(** X11. [getSKUDetails] returns [null] exactly when no product has a SKU
    with the given id.  Otherwise it returns a SKU with that id together
    with the name of the product holding it, and this SKU is the one at which
    the inventory update of [createSaleOrder] arrives for that id: the row of
    the form describes the SKU whose stock the order will reduce.  The
    product name is the one [getProductNameBySKUId] shows. *)
Theorem form_row_describes_the_ordered_sku (products : list Product.t)
    (skuId : Z) :
  (getSKUDetails products skuId = None ↔ locate products skuId = None)
  ∧ (getSKUDetails products skuId = None
     ↔ ∀ i j sku, sku_at products i j = Some sku → SKU.id sku ≠ skuId)
  ∧ ∀ details, getSKUDetails products skuId = Some details →
      SKU.id (SKUDetails.sku details) = skuId
      ∧ SKUDetails.productName details = getProductNameBySKUId products skuId
      ∧ ∃ i j, locate products skuId = Some (i, j)
               ∧ sku_at products i j = Some (SKUDetails.sku details).
Proof.
  pose proof (getSKUDetails_locate products skuId) as Hloc.
  assert (Hnone : getSKUDetails products skuId = None
                  ↔ locate products skuId = None).
  { destruct (getSKUDetails products skuId) as [details|]; [|done].
    destruct Hloc as (i & j & p & -> & _). done. }
  split; [done|]. split; [by rewrite Hnone, locate_None|].
  intros details Hsome. rewrite Hsome in Hloc.
  destruct Hloc as (i & j & p & Hloc & Hi & Hname & Hj & Hid).
  split; [done|]. split.
  - rewrite getProductNameBySKUId_find. unfold locate in Hloc.
    unfold Array_find.
    destruct (list_find (has_sku skuId) products) as [[i' p']|] eqn:Hfind;
      [|done].
    destruct (list_find _ (Product.sku p')) as [[j' sku']|]; [|done].
    injection Hloc as -> ->.
    apply list_find_Some in Hfind as (Hi' & _). cbn. congruence.
  - exists i, j. split; [done|]. unfold sku_at. by rewrite Hi.
Qed.

Lemma form_row_describes_the_ordered_sku_witness :
  getSKUDetails (mockProducts Scenario.s0) 10
  = Some (SKUDetails.mk "Widget" Scenario.widget_sku)
  ∧ locate (mockProducts Scenario.s0) 10 = Some (0%nat, 0%nat)
  ∧ getSKUDetails (mockProducts Scenario.s0) 11 = None.
Proof.
  destruct (form_row_describes_the_ordered_sku (mockProducts Scenario.s0) 11)
    as (Hnone & _).
  split; [reflexivity|]. split; [reflexivity|]. by apply Hnone.
Defined.

(** X12. [handleAddItem] either leaves the form as it is or clears the
    selection and appends one row: the rows already there are never touched.
    It does nothing without a selection, with the selection 0, and with a
    selection that is no product's id.  A row it appends has quantity 1, the id and the selling price of the
    first SKU of the first product with the selected id, and a SKU id that
    [getSKUDetails] finds in the catalog. *)
Theorem handleAddItem_appends_one_row (products : list Product.t)
    (st : OrderFormState) :
  let st' := handleAddItem products st in
  (st' = st
   ∨ ∃ selected product sku rest,
       selectedProduct st = Some selected
       ∧ selected ≠ 0
       ∧ Array_find (λ p, Product.id p = selected) products = Some product
       ∧ Product.sku product = sku :: rest
       ∧ selectedProduct st' = None
       ∧ fields st'
         = fields st
           ++ [OrderItem.mk (SKU.id sku) (SKU.selling_price sku) 1 None]
       ∧ is_Some (getSKUDetails products (SKU.id sku)))
  ∧ (selectedProduct st = None → st' = st)
  ∧ (selectedProduct st = Some 0 → st' = st)
  ∧ (∀ selected, selectedProduct st = Some selected →
       (∀ p, p ∈ products → Product.id p ≠ selected) → st' = st).
Proof.
  intros st'. unfold st', handleAddItem.
  destruct (selectedProduct st) as [selected|] eqn:Hsel; [|by repeat split; auto].
  destruct (decide (selected = 0)) as [->|Hne].
  { repeat split; auto. }
  destruct (Array_find _ products) as [product|] eqn:Hfind.
  - assert (Hin : product ∈ products ∧ Product.id product = selected).
    { unfold Array_find in Hfind.
      apply fmap_Some in Hfind as ([k p] & Hfind & ->).
      apply list_find_Some in Hfind as (Hk & Hid & _).
      split; [by eapply list_elem_of_lookup_2 | done]. }
    destruct Hin as [Hin Hid].
    destruct (Product.sku product) as [|sku rest] eqn:Hskus.
    + repeat split; auto; try congruence.
    + split; [|split; [done|split; [congruence|]]].
      * right. exists selected, product, sku, rest.
        do 6 (split; [done|]). cbn.
        destruct (getSKUDetails products (SKU.id sku)) as [d|] eqn:Hd;
          [done|].
        pose proof (getSKUDetails_locate products (SKU.id sku)) as Hloc.
        rewrite Hd in Hloc.
        apply list_elem_of_lookup in Hin as [i Hi].
        destruct (proj1 (locate_None products (SKU.id sku)) Hloc i 0%nat sku);
          [|done].
        unfold sku_at. by rewrite Hi; cbn; rewrite Hskus.
      * intros selected' [= <-] Hnone. by destruct (Hnone product Hin).
  - repeat split; auto.
Qed.

Lemma handleAddItem_appends_one_row_witness :
  handleAddItem (mockProducts Scenario.s0)
    (handleProductChange 1 (mkOrderFormState None []))
  = mkOrderFormState None [OrderItem.mk 10 100 1 None]
  ∧ handleAddItem (mockProducts Scenario.s0)
      (handleProductChange 5 (mkOrderFormState None []))
    = mkOrderFormState (Some 5) [].
Proof.
  destruct (handleAddItem_appends_one_row (mockProducts Scenario.s0)
              (handleProductChange 5 (mkOrderFormState None [])))
    as (_ & _ & _ & Hunknown).
  split; [reflexivity|].
  apply (Hunknown 5); [reflexivity|].
  intros p ->%list_elem_of_singleton. discriminate.
Defined.

(** X14. A new form starts with the first customer's profile id, or with 0
    when there are no customers.  [createSaleOrder] with that id resolves to
    the first customer, and throws "Customer not found" exactly when there
    are no customers at all. *)
Theorem default_customer_is_the_first (s : State)
    (orderData : SaleOrderFormData.t) :
  SaleOrderFormData.customer_id orderData
  = defaultCustomerId (mockCustomers s) →
  find_customer s (SaleOrderFormData.customer_id orderData)
  = head (mockCustomers s)
  ∧ ((createSaleOrder orderData s).1 = Throw CustomerNotFound
     ↔ mockCustomers s = [])
  ∧ ∀ o, (createSaleOrder orderData s).1 = Ok o →
      ∃ customer, head (mockCustomers s) = Some customer
        ∧ SaleOrder.customer_name o
          = CustomerProfile.name (Customer.customer_profile customer).
Proof.
  intros Hid.
  assert (Hfind : find_customer s (SaleOrderFormData.customer_id orderData)
                  = head (mockCustomers s)).
  { rewrite Hid. unfold find_customer, defaultCustomerId.
    destruct (mockCustomers s) as [|c rest]; [done|].
    rewrite Array_find_cons. cbn [head].
    rewrite decide_True; [done|]. unfold is_customer.
    by destruct (decide _). }
  split; [done|]. rewrite createSaleOrder_run, Hfind.
  destruct (mockCustomers s) as [|c rest]; cbn.
  - split; [done|]. by intros o [=].
  - split; [done|]. intros o [= <-]. by exists c.
Qed.

Lemma default_customer_is_the_first_witness :
  defaultCustomerId (mockCustomers Scenario.s0) = 1
  ∧ find_customer Scenario.s0 1 = Some Scenario.customer
  ∧ defaultCustomerId [] = 0.
Proof.
  destruct (default_customer_is_the_first Scenario.s0 Scenario.form eq_refl)
    as (Hfind & _).
  split; [reflexivity|]. split; [exact Hfind | reflexivity].
Defined.

(** * The callers of the API: [OrderTable] and [Dashboard] *)

(** The values of a validated form; the [Date] in [invoice_date] is its
    time value. *)
Module OrderFormValues.
Record t := mk {
  customer_id : Z;
  invoice_no : string;
  invoice_date : Z;
  items : list OrderItem.t;
  paid : bool
}.
End OrderFormValues.

(** [s.split('T')[0]]: what comes before the first ["T"]. *)
Fixpoint before_T (s : string) : string :=
  match s with
  | EmptyString => EmptyString
  | String c rest =>
      if decide (c = "T"%char) then EmptyString else String c (before_T rest)
  end.

(** [OrderTable]: the function [handleMarkAsPaid] hands to the mutation. *)
Definition handleMarkAsPaid (orderId : Z) : M SaleOrder.t :=
  markOrderAsPaid orderId.

Section Dashboard.
(** [date.toISOString()] *)
Variable Date_toISOString : Z → string.

(** The [formData] that [handleCreateOrder] and [handleUpdateOrder] build;
    [data.items || []] and [data.paid || false] are the validated values
    themselves, an array being truthy. *)
Definition formData (data : OrderFormValues.t) : SaleOrderFormData.t :=
  SaleOrderFormData.mk (OrderFormValues.customer_id data)
    (OrderFormValues.items data) (OrderFormValues.paid data)
    (OrderFormValues.invoice_no data)
    (before_T (Date_toISOString (OrderFormValues.invoice_date data))).

(** The API call [handleCreateOrder] makes through its mutation. *)
Definition handleCreateOrder (data : OrderFormValues.t) : M SaleOrder.t :=
  createSaleOrder (formData data).

(** The API call [handleUpdateOrder] makes through its mutation, if an
    order is selected. *)
Definition handleUpdateOrder (selectedOrder : option SaleOrder.t)
    (data : OrderFormValues.t) : M (option SaleOrder.t) :=
  match selectedOrder with
  | Some order =>
      updated ← updateSaleOrder (SaleOrder.id order) (formData data);
      mret (Some updated)
  | None => mret None
  end.

(** X15. Every order that [getSaleOrders] lists can be acted on from its
    row: marking it as paid succeeds and returns a paid order with the same
    id, and an update of it can only fail with "Customer not found", never
    with "Order not found".  Without a selected order [handleUpdateOrder]
    calls nothing. *)
Theorem listed_orders_can_be_acted_on (getTime : string → Z) (s : State)
    (status : OrderStatus) (order : SaleOrder.t) :
  order ∈ listOrders getTime status (mockSaleOrders s) →
  (∃ o s', handleMarkAsPaid (SaleOrder.id order) s = (Ok o, s')
           ∧ SaleOrder.id o = SaleOrder.id order
           ∧ SaleOrder.paid o = true)
  ∧ (∀ data e, (handleUpdateOrder (Some order) data s).1 = Throw e →
       e = CustomerNotFound)
  ∧ (∀ data o, (handleUpdateOrder (Some order) data s).1 = Ok o →
       ∃ updated, o = Some updated
                  ∧ SaleOrder.id updated = SaleOrder.id order)
  ∧ (∀ data, handleUpdateOrder None data s = (Ok None, s)).
Proof.
  intros [Hin _]%listOrders_elem_of.
  destruct (list_find_elem_of (is_order (SaleOrder.id order))
              (mockSaleOrders s) order Hin eq_refl) as [[i found] Hfind].
  apply list_find_Some in Hfind as Hfound. destruct Hfound as (_ & Hid & _).
  unfold handleMarkAsPaid, handleUpdateOrder, mbind, M_bind.
  split; [|split; [|split; [|done]]].
  - rewrite markOrderAsPaid_run, Hfind. by eexists _, _.
  - intros data e. rewrite updateSaleOrder_run, Hfind.
    destruct (find_customer _ _) as [customer|]; cbn; [done|].
    by intros [= <-].
  - intros data o. rewrite updateSaleOrder_run, Hfind.
    destruct (find_customer _ _) as [customer|]; cbn; [|done].
    intros [= <-]. by eexists.
Qed.
End Dashboard.

Lemma listed_orders_can_be_acted_on_witness :
  ∃ o s', handleMarkAsPaid 3 Listing.s = (Ok o, s')
          ∧ SaleOrder.id o = 3
          ∧ SaleOrder.paid o = true.
Proof.
  destruct (listed_orders_can_be_acted_on (λ _, "") Listing.millis Listing.s
              active Listing.c)
    as (Hpay & _).
  - change (mockSaleOrders Listing.s)
      with [Listing.a; Listing.b; Listing.c; Listing.d].
    rewrite Listing.active_orders. by left.
  - exact Hpay.
Defined.

(** [OrderTable]: the three channels of the avatar colour,
    [rgb(id % 255, (id * 2) % 255, (id * 3) % 255)]; [%] is the remainder
    of the truncated division. *)
Definition avatarColor (customer_id : Z) : Z * Z * Z :=
  (Z.rem customer_id 255, Z.rem (customer_id * 2) 255,
   Z.rem (customer_id * 3) 255).

(** X16. For a customer id that is not negative each channel of the avatar
    colour is between 0 and 254, and customer ids that differ by 255 get the
    same colour. *)
Theorem avatarColor_in_range (customer_id : Z) :
  0 ≤ customer_id →
  (let '(r, g, b) := avatarColor customer_id in
   0 ≤ r ≤ 254 ∧ 0 ≤ g ≤ 254 ∧ 0 ≤ b ≤ 254)
  ∧ avatarColor (customer_id + 255) = avatarColor customer_id.
Proof.
  intros Hid. unfold avatarColor.
  rewrite !Z.rem_mod_nonneg by lia. split.
  - pose proof (Z.mod_pos_bound customer_id 255).
    pose proof (Z.mod_pos_bound (customer_id * 2) 255).
    pose proof (Z.mod_pos_bound (customer_id * 3) 255). lia.
  - replace ((customer_id + 255) * 2) with (customer_id * 2 + 2 * 255) by lia.
    replace ((customer_id + 255) * 3) with (customer_id * 3 + 3 * 255) by lia.
    replace (customer_id + 255) with (customer_id + 1 * 255) by lia.
    by rewrite !Z_mod_plus_full.
Qed.

Lemma avatarColor_in_range_witness :
  avatarColor 256 = avatarColor 1 ∧ avatarColor 1 = (1, 2, 3).
Proof.
  destruct (avatarColor_in_range 1) as (_ & Hsame); [lia|].
  split; [exact Hsame | reflexivity].
Defined.

Lemma before_T_app (day time : string) :
  "T"%char ∉ String.list_ascii_of_string day →
  before_T (day +:+ String "T" time) = day.
Proof.
  induction day as [|c day IH]; intros Hday.
  - done.
  - cbn [String.list_ascii_of_string] in Hday.
    apply not_elem_of_cons in Hday as [Hc Hday].
    change (String c day +:+ String "T" time)
      with (String c (day +:+ String "T" time)).
    cbn [before_T]. rewrite decide_False by congruence. by rewrite IH.
Qed.

(** X17. [handleCreateOrder] hands the form's customer, items, paid flag
    and invoice number to [createSaleOrder] as they are, and of the invoice
    date the part of its ISO string before the first "T": the day.  The
    created order carries these values, and its total is the sum of the
    form's lines (doubles, added in the order of the lines). *)
Theorem handleCreateOrder_keeps_the_day (Date_toISOString : Z → string)
    (data : OrderFormValues.t) (day time : string) (s s' : State)
    (o : SaleOrder.t) :
  Date_toISOString (OrderFormValues.invoice_date data)
  = day +:+ String "T" time →
  "T"%char ∉ String.list_ascii_of_string day →
  handleCreateOrder Date_toISOString data s = (Ok o, s') →
  SaleOrder.invoice_date o = day
  ∧ SaleOrder.invoice_no o = OrderFormValues.invoice_no data
  ∧ SaleOrder.customer_id o = OrderFormValues.customer_id data
  ∧ SaleOrder.paid o = OrderFormValues.paid data
  ∧ SaleOrder.total_price o
    = sum_in_order (line_total <$> OrderFormValues.items data).
Proof.
  intros Hiso Hday (customer & _ & -> & _)%createSaleOrder_Ok.
  cbn. rewrite Hiso, before_T_app, items_total_sum by done. done.
Qed.

Lemma handleCreateOrder_keeps_the_day_witness :
  ∃ o s',
    handleCreateOrder (λ _, "2024-01-01T10:00:00.000Z")
      (OrderFormValues.mk 1 "INV-1" 1704103200000
         [OrderItem.mk 10 100 3 None] false)
      Scenario.s0 = (Ok o, s')
    ∧ SaleOrder.invoice_date o = "2024-01-01".
Proof.
  exists Scenario.order1, (createSaleOrder Scenario.form Scenario.s0).2.
  split; [reflexivity|].
  apply (handleCreateOrder_keeps_the_day (λ _, "2024-01-01T10:00:00.000Z")
            (OrderFormValues.mk 1 "INV-1" 1704103200000
               [OrderItem.mk 10 100 3 None] false)
            "2024-01-01" "10:00:00.000Z" Scenario.s0
            (createSaleOrder Scenario.form Scenario.s0).2 Scenario.order1).
  - reflexivity.
  - cbn. intros Hin.
    repeat (apply elem_of_cons in Hin as [Hin|Hin]; [discriminate Hin|]).
    by apply not_elem_of_nil in Hin.
  - reflexivity.
Defined.

(** * [ThemeProvider] ([src/contexts/ThemeContext.tsx]) *)

(** What the provider reads and writes in the browser: [localStorage], the
    class list of the document element, and whether
    [window.matchMedia && matchMedia('(prefers-color-scheme: dark)').matches]
    holds. *)
Record Browser := mkBrowser {
  localStorage : gmap string string;
  classList : gset string;
  prefers_dark : bool
}.

(** The initializer of [useState]: a saved theme wins unless it is the
    empty string (falsy); both remaining branches give "dark". *)
Definition initialTheme (b : Browser) : string :=
  match localStorage b !! "theme" with
  | Some savedTheme =>
      if decide (savedTheme = "") then
        (if prefers_dark b then "dark" else "dark")
      else savedTheme
  | None => if prefers_dark b then "dark" else "dark"
  end.

(** The effect that runs when [theme] changes. *)
Definition applyTheme (theme : string) (b : Browser) : Browser :=
  mkBrowser (<["theme" := theme]> (localStorage b))
    (if decide (theme = "dark") then classList b ∪ {["dark"]}
     else classList b ∖ {["dark"]})
    (prefers_dark b).

(** [prevTheme === "dark" ? "light" : "dark"] *)
Definition toggleTheme (prevTheme : string) : string :=
  if decide (prevTheme = "dark") then "light" else "dark".

(** X18. The theme survives a reload: after the effect has run for a
    theme that is not the empty string, the initializer gives that theme
    back.  The effect puts the class "dark" on the document exactly for the
    theme "dark" and touches no other class and no other key of the
    storage. *)
Theorem theme_survives_reload (theme : string) (b : Browser) :
  theme ≠ "" →
  initialTheme (applyTheme theme b) = theme
  ∧ ("dark" ∈ classList (applyTheme theme b) ↔ theme = "dark")
  ∧ (∀ class, class ≠ "dark" →
       (class ∈ classList (applyTheme theme b) ↔ class ∈ classList b))
  ∧ (∀ key, key ≠ "theme" →
       localStorage (applyTheme theme b) !! key = localStorage b !! key).
Proof.
  intros Hne. unfold initialTheme, applyTheme. cbn.
  rewrite lookup_insert_eq, decide_False by done.
  split; [done|]. split; [|split].
  - destruct (decide (theme = "dark")).
    + rewrite elem_of_union, elem_of_singleton. tauto.
    + rewrite elem_of_difference, elem_of_singleton. tauto.
  - intros class Hclass. destruct (decide (theme = "dark")).
    + rewrite elem_of_union, elem_of_singleton. tauto.
    + rewrite elem_of_difference, elem_of_singleton. tauto.
  - intros key Hkey. by rewrite lookup_insert_ne.
Qed.

Lemma theme_survives_reload_witness :
  initialTheme (applyTheme "light" (mkBrowser ∅ {["dark"]} true)) = "light"
  ∧ ("dark" ∈ classList (applyTheme "light" (mkBrowser ∅ {["dark"]} true))
     ↔ "light" = "dark").
Proof.
  destruct (theme_survives_reload "light" (mkBrowser ∅ {["dark"]} true))
    as (Hreload & Hclass & _); [discriminate|].
  split; [exact Hreload | exact Hclass].
Defined.

(** X19. Without a saved theme, or with the empty string saved, the first
    theme is "dark" whatever the system prefers.  [toggleTheme] always gives
    "light" or "dark", and two toggles give back the theme one started from
    exactly when that was "light" or "dark"; toggling never gives a theme
    that a reload would lose. *)
Theorem theme_defaults_and_toggles (b : Browser) (theme : string) :
  (localStorage b !! "theme" = None ∨ localStorage b !! "theme" = Some ""
   → initialTheme b = "dark")
  ∧ (toggleTheme theme = "light" ∨ toggleTheme theme = "dark")
  ∧ (toggleTheme (toggleTheme theme) = theme
     ↔ theme = "light" ∨ theme = "dark")
  ∧ toggleTheme theme ≠ theme
  ∧ initialTheme (applyTheme (toggleTheme theme) b) = toggleTheme theme.
Proof.
  unfold initialTheme, toggleTheme, applyTheme. cbn.
  rewrite lookup_insert_eq. split; [|split; [|split; [|split]]].
  - intros [->| ->]; by destruct (prefers_dark b).
  - destruct (decide (theme = "dark")); auto.
  - destruct (decide (theme = "dark")) as [->|Hne]; cbn.
    + split; auto.
    + split; [by left | by intros [->|]].
  - by destruct (decide (theme = "dark")) as [->|Hne].
  - by destruct (decide (theme = "dark")).
Qed.

Lemma theme_defaults_and_toggles_witness :
  initialTheme (mkBrowser ∅ ∅ false) = "dark"
  ∧ toggleTheme (toggleTheme "dark") = "dark"
  ∧ toggleTheme (toggleTheme "blue") = "light".
Proof.
  destruct (theme_defaults_and_toggles (mkBrowser ∅ ∅ false) "dark")
    as (Hfirst & _ & Htwice & _).
  split; [apply Hfirst; by left|]. split; [apply Htwice; by right|].
  reflexivity.
Defined.

(** * Invariants of the store *)

(** Every stored order's [total_price] is the sum of its own lines, taken
    in their order. *)
Definition totals_consistent (orders : list SaleOrder.t) : Prop :=
  Forall (λ o, SaleOrder.total_price o
               = sum_in_order (line_total <$> SaleOrder.items o)) orders.

(** Every stored order names a customer of the catalog, by profile id and
    with that profile's name. *)
Definition customers_known (customers : list Customer.t)
    (orders : list SaleOrder.t) : Prop :=
  Forall (λ o, ∃ c, c ∈ customers
                    ∧ CustomerProfile.id (Customer.customer_profile c)
                      = SaleOrder.customer_id o
                    ∧ SaleOrder.customer_name o
                      = CustomerProfile.name (Customer.customer_profile c))
         orders.

Lemma line_totals_with_product_name (products : list Product.t)
    (items : list OrderItem.t) :
  line_total <$> (with_product_name products <$> items) = line_total <$> items.
Proof. rewrite <- list_fmap_compose. by apply list_fmap_ext. Qed.

Lemma find_customer_Some (s : State) (customer_id : Z) (c : Customer.t) :
  find_customer s customer_id = Some c →
  c ∈ mockCustomers s
  ∧ CustomerProfile.id (Customer.customer_profile c) = customer_id.
Proof.
  unfold find_customer, Array_find.
  intros ([k c'] & (Hk & Hid & _)%list_find_Some & ->)%fmap_Some.
  split; [by eapply list_elem_of_lookup_2 | done].
Qed.

(** X20. If every stored order's [total_price] is the sum of
    [price * quantity] over its own stored items (doubles, summed in the
    order of the items), this is still so after any
    [createSaleOrder], [updateSaleOrder] or [markOrderAsPaid], failed or
    not. *)
Theorem totals_stay_consistent (s : State) (id : Z)
    (orderData : SaleOrderFormData.t) :
  totals_consistent (mockSaleOrders s) →
  totals_consistent (mockSaleOrders (createSaleOrder orderData s).2)
  ∧ totals_consistent (mockSaleOrders (updateSaleOrder id orderData s).2)
  ∧ totals_consistent (mockSaleOrders (markOrderAsPaid id s).2).
Proof.
  unfold totals_consistent. intros Hall.
  rewrite createSaleOrder_run, updateSaleOrder_run, markOrderAsPaid_run.
  split; [|split].
  - destruct (find_customer _ _) as [customer|]; [|done].
    cbn. apply Forall_app. split; [done|]. constructor; [|done].
    cbn. by rewrite line_totals_with_product_name, items_total_sum.
  - destruct (list_find _ _) as [[i old]|]; [|done].
    destruct (find_customer _ _) as [customer|]; [|done].
    cbn. apply Forall_insert; [done|].
    cbn. by rewrite line_totals_with_product_name, items_total_sum.
  - destruct (list_find _ _) as [[i old]|] eqn:Hfind; [|done].
    apply list_find_Some in Hfind as (Hi & _).
    cbn. apply Forall_insert; [done|]. cbn.
    rewrite Forall_forall in Hall. apply Hall.
    by eapply list_elem_of_lookup_2.
Qed.

Lemma totals_stay_consistent_witness :
  totals_consistent (mockSaleOrders (createSaleOrder Scenario.form Scenario.s1).2)
  ∧ totals_consistent (mockSaleOrders (markOrderAsPaid 1 Scenario.s1).2).
Proof.
  destruct (totals_stay_consistent Scenario.s1 1 Scenario.form)
    as (Hcreate & _ & Hpay).
  - by repeat constructor.
  - split; [exact Hcreate | exact Hpay].
Defined.

(** X21. If every stored order names a customer of the catalog (its
    [customer_id] is a profile id and its [customer_name] that profile's
    name), this is still so after any [createSaleOrder], [updateSaleOrder]
    or [markOrderAsPaid], failed or not: no order is ever stored for a
    customer that is not in the catalog. *)
Theorem customers_stay_known (s : State) (id : Z)
    (orderData : SaleOrderFormData.t) :
  let known (s : State) :=
    customers_known (mockCustomers s) (mockSaleOrders s) in
  known s →
  known (createSaleOrder orderData s).2
  ∧ known (updateSaleOrder id orderData s).2
  ∧ known (markOrderAsPaid id s).2.
Proof.
  intros known. unfold known, customers_known. intros Hall.
  rewrite createSaleOrder_run, updateSaleOrder_run, markOrderAsPaid_run.
  split; [|split].
  - destruct (find_customer _ _) as [customer|] eqn:Hc; [|done].
    apply find_customer_Some in Hc as [Hin Hid].
    cbn. apply Forall_app. split; [done|]. constructor; [|done].
    by exists customer.
  - destruct (list_find _ _) as [[i old]|]; [|done].
    destruct (find_customer _ _) as [customer|] eqn:Hc; [|done].
    apply find_customer_Some in Hc as [Hin Hid].
    cbn. apply Forall_insert; [done|]. by exists customer.
  - destruct (list_find _ _) as [[i old]|] eqn:Hfind; [|done].
    apply list_find_Some in Hfind as (Hi & _).
    cbn. apply Forall_insert; [done|]. cbn.
    rewrite Forall_forall in Hall. apply (Hall old).
    by eapply list_elem_of_lookup_2.
Qed.

Lemma customers_stay_known_witness :
  customers_known (mockCustomers Scenario.s0)
    (mockSaleOrders (createSaleOrder Scenario.form Scenario.s0).2).
Proof.
  destruct (customers_stay_known Scenario.s0 1 Scenario.form)
    as (Hcreate & _).
  - constructor.
  - exact Hcreate.
Defined.
